(** * Voting_Blockchain: the proof-of-work ledger of [voting_system.py]

    A shallow embedding of the [Block] / [Blockchain] classes of
    [src/voting_system.py] and the properties of mining, chain validation
    and the ledger's three mutating operations.

    Conventions of the embedding.
    - A Python [str] is a sequence of Unicode code points: [list N].
    - A Python [int] is unbounded: [Z].
    - [time.time()] returns a float which the program only ever turns into
      text with [float.__repr__] (through the f-string of [calculate_hash]
      and through [json.dumps]); a timestamp is carried as that text.
    - [hashlib.sha256] is FIPS 180-4, written out below on 32-bit words.
    - The [while] loop of [mine_block] has no bound in the source; the
      embedding runs it with a fuel argument and reports [OutOfFuel] when
      the fuel does not reach a nonce that meets the target.
    - The clock is an input: an operation that reads [time.time()] takes the
      value read as an argument.
    - Every path of the three operations and of [validate_chain] ends with
      one [print] before its [return].  [Blockchain] has the operations up
      to that [print], the result naming the message; [Printed] has them
      with it, on a stream that may refuse the text, and [Cli] has [main]
      with its input and output. *)

From Stdlib Require Import ZArith NArith List Lia Ascii String Uint63.
From stdpp Require Import base option list gmap strings pretty.

Local Open Scope Z_scope.

(** ** Python strings *)

Module PyStr.

(** [str]: code points, in order. *)
Definition str : Type := list N.

(** A literal of the source, which is ASCII throughout. *)
Definition lit (s : string) : str :=
  (fun a : ascii => N_of_ascii a) <$> list_ascii_of_string s.

(** [s * n] for a one-character [s]: a negative count gives the empty
    string.  CPython takes the count as a signed 64-bit index and raises
    [OverflowError] for a count that is none, and [MemoryError] for a
    string it cannot allocate; the properties that depend on it keep to
    counts from [-2^63] to the length of a digest (see [Mining.feasible]). *)
Definition times (c : N) (n : Z) : str := replicate (Z.to_nat n) c.

(** [str(n)] / [f"{n}"] of an [int].  CPython (3.11, with its default
    limit) raises [ValueError] for an [int] of more than 4300 digits; the
    properties that depend on it keep to [convertible] ints. *)
Definition of_int (n : Z) : str := lit (pretty n).

(** The ints [str()] and an f-string convert: at most 4300 digits. *)
Definition convertible (n : Z) : Prop := Z.abs n < 10 ^ 4300.

(** [s.startswith(prefix)]. *)
Fixpoint startswith (s prefix : str) {struct prefix} : bool :=
  match prefix, s with
  | [], _ => true
  | _ :: _, [] => false
  | p :: prefix', c :: s' => if decide (c = p) then startswith s' prefix' else false
  end.

(** [str.isspace] on one character: the code points CPython's
    [_PyUnicode_IsWhitespace] accepts. *)
Definition isspace (c : N) : bool :=
  ((9 <=? c) && (c <=? 13) || (28 <=? c) && (c <=? 32)
   || (c =? 133) || (c =? 160) || (c =? 5760)
   || (8192 <=? c) && (c <=? 8202)
   || (c =? 8232) || (c =? 8233) || (c =? 8239) || (c =? 8287)
   || (c =? 12288))%N.

Fixpoint lstrip (s : str) : str :=
  match s with
  | c :: s' => if isspace c then lstrip s' else s
  | [] => []
  end.

Definition rstrip (s : str) : str := rev (lstrip (rev s)).

(** [s.strip()]. *)
Definition strip (s : str) : str := rstrip (lstrip s).

(** [s.encode()]: UTF-8, strict.  A surrogate (U+D800..U+DFFF) cannot be
    encoded and raises [UnicodeEncodeError]: [None]. *)
Definition encode_char (c : N) : option (list N) :=
  (if c <? 128 then Some [c]
   else if c <? 2048 then
     Some [N.lor 192 (N.shiftr c 6); N.lor 128 (N.land c 63)]
   else if (55296 <=? c) && (c <=? 57343) then None
   else if c <? 65536 then
     Some [N.lor 224 (N.shiftr c 12);
           N.lor 128 (N.land (N.shiftr c 6) 63);
           N.lor 128 (N.land c 63)]
   else
     Some [N.lor 240 (N.shiftr c 18);
           N.lor 128 (N.land (N.shiftr c 12) 63);
           N.lor 128 (N.land (N.shiftr c 6) 63);
           N.lor 128 (N.land c 63)])%N.

Fixpoint encode (s : str) : option (list N) :=
  match s with
  | [] => Some []
  | c :: s' =>
      match encode_char c, encode s' with
      | Some bs, Some rest => Some (bs ++ rest)
      | _, _ => None
      end
  end.



(** One lower-case hexadecimal digit. *)
Definition hex_digit (d : N) : N :=
  (if d <? 10 then 48 + d else 87 + d)%N.

(** ['{0:04x}'.format(n)]-style output: the [k] low hexadecimal digits of
    [n], most significant first. *)
Fixpoint hex_fixed (k : nat) (n : N) : str :=
  match k with
  | O => []
  | S k' => hex_fixed k' (N.shiftr n 4) ++ [hex_digit (N.land n 15)]
  end.

End PyStr.
Export PyStr.

(** ** SHA-256 (FIPS 180-4), as [hashlib.sha256(data).hexdigest()]

    The 32-bit words are held in machine integers ([Uint63]) and masked
    after every addition and left shift. *)

Module SHA256.

Import Uint63.
Local Open Scope uint63_scope.

Definition word : Type := int.

Definition mask32 : word := 4294967295.

Definition add32 (x y : word) : word := (x + y) land mask32.
Definition rotr (n x : word) : word :=
  (x >> n) lor ((x << (32 - n)) land mask32).
Definition not32 (x : word) : word := x lxor mask32.

Definition Ch (x y z : word) : word := (x land y) lxor (not32 x land z).
Definition Maj (x y z : word) : word :=
  (x land y) lxor (x land z) lxor (y land z).
Definition bsig0 (x : word) : word := rotr 2 x lxor rotr 13 x lxor rotr 22 x.
Definition bsig1 (x : word) : word := rotr 6 x lxor rotr 11 x lxor rotr 25 x.
Definition ssig0 (x : word) : word := rotr 7 x lxor rotr 18 x lxor (x >> 3).
Definition ssig1 (x : word) : word := rotr 17 x lxor rotr 19 x lxor (x >> 10).

(** The first sixty-four primes. *)
Definition primes : list N :=
  [2; 3; 5; 7; 11; 13; 17; 19; 23; 29; 31; 37; 41; 43; 47; 53;
   59; 61; 67; 71; 73; 79; 83; 89; 97; 101; 103; 107; 109; 113; 127; 131;
   137; 139; 149; 151; 157; 163; 167; 173; 179; 181; 191; 193; 197; 199;
   211; 223; 227; 229; 233; 239; 241; 251; 257; 263; 269; 271; 277; 281;
   283; 293; 307; 311]%N.

(** Integer cube root, one bit at a time from bit [k - 1] down. *)
Fixpoint icbrt_bits (k : nat) (n r : N) : N :=
  match k with
  | O => r
  | S k' =>
      let r' := (r + N.shiftl 1 (N.of_nat k'))%N in
      icbrt_bits k' n (if (r' * r' * r' <=? n)%N then r' else r)
  end.
Definition icbrt (n : N) : N := icbrt_bits 40 n 0.

Definition of_N (n : N) : word := of_Z (Z.of_N n).
Definition to_N (x : word) : N := Z.to_N (to_Z x).

(** Round constants: the first 32 bits of the fractional parts of the cube
    roots of the primes. *)
Definition K : list word :=
  Eval vm_compute in
    (fun p => of_N (icbrt (p * 2 ^ 96) mod 2 ^ 32)%N) <$> primes.

(** Initial hash value: the same of the square roots of the first eight. *)
Definition H0 : list word :=
  Eval vm_compute in
    (fun p => of_N (N.sqrt (p * 2 ^ 64) mod 2 ^ 32)%N) <$> take 8 primes.

(** Padding: a 1 bit, zeros up to 56 mod 64 bytes, the bit length on 8
    bytes, most significant first. *)
Fixpoint be_bytes (k : nat) (n : N) : list N :=
  match k with
  | O => []
  | S k' => be_bytes k' (N.shiftr n 8) ++ [N.land n 255]
  end.

Definition pad (msg : list N) : list N :=
  let len := N.of_nat (length msg) in
  let zeros := N.to_nat ((119 - len mod 64) mod 64)%N in
  msg ++ [128%N] ++ replicate zeros 0%N ++ be_bytes 8 (8 * len)%N.

(** Big-endian 32-bit words of a byte sequence (a multiple of 4 long). *)
Fixpoint words (fuel : nat) (bs : list N) : list word :=
  match fuel, bs with
  | S fuel', a :: b :: c :: d :: rest =>
      ((of_N a << 24) lor (of_N b << 16) lor (of_N c << 8) lor of_N d)
        :: words fuel' rest
  | _, _ => []
  end.

(** Message schedule, most recent word first. *)
Fixpoint extend (k : nat) (rw : list word) : list word :=
  match k with
  | O => rw
  | S k' =>
      let wt :=
        add32 (add32 (ssig1 (nth 1 rw 0)) (nth 6 rw 0))
              (add32 (ssig0 (nth 14 rw 0)) (nth 15 rw 0)) in
      extend k' (wt :: rw)
  end.
Definition schedule (block : list word) : list word :=
  rev (extend 48 (rev block)).

Record regs := Regs
  { ra : word; rb : word; rc : word; rd : word;
    re : word; rf : word; rg : word; rh : word }.

Definition round (s : regs) (kw : word * word) : regs :=
  let t1 := add32 (add32 (add32 (rh s) (bsig1 (re s)))
                         (add32 (Ch (re s) (rf s) (rg s)) (fst kw))) (snd kw) in
  let t2 := add32 (bsig0 (ra s)) (Maj (ra s) (rb s) (rc s)) in
  Regs (add32 t1 t2) (ra s) (rb s) (rc s) (add32 (rd s) t1) (re s) (rf s) (rg s).

Definition compress (h : regs) (block : list word) : regs :=
  let s := fold_left round (zip K (schedule block)) h in
  Regs (add32 (ra h) (ra s)) (add32 (rb h) (rb s)) (add32 (rc h) (rc s))
       (add32 (rd h) (rd s)) (add32 (re h) (re s)) (add32 (rf h) (rf s))
       (add32 (rg h) (rg s)) (add32 (rh h) (rh s)).

Fixpoint blocks (fuel : nat) (ws : list word) : list (list word) :=
  match fuel, ws with
  | S fuel', _ :: _ => take 16 ws :: blocks fuel' (drop 16 ws)
  | _, _ => []
  end.

Definition init : regs :=
  match H0 with
  | [a; b; c; d; e; f; g; h] => Regs a b c d e f g h
  | _ => Regs 0 0 0 0 0 0 0 0
  end.

Definition digest (msg : list N) : regs :=
  let bs := pad msg in
  let ws := words (length bs) bs in
  fold_left compress (blocks (length ws) ws) init.

(** The eight hexadecimal digits of a word, most significant first. *)
Definition hex_word (x : word) : str := hex_fixed 8 (to_N x).

(** [hashlib.sha256(msg).hexdigest()]: 64 lower-case hexadecimal digits. *)
Definition hexdigest (msg : list N) : str :=
  let r := digest msg in
  concat (hex_word <$> [ra r; rb r; rc r; rd r; re r; rf r; rg r; rh r]).

End SHA256.

(** ** Values of the program *)

(** A float of [time.time()], carried as its [float.__repr__] text (ASCII,
    for instance [1700000000.25]).  [float.__repr__] is injective on the
    finite floats the clock returns, so nothing the program can observe is
    lost. *)
Record pyfloat := Float { float_repr : string }.

(** What a call can do besides returning: raise, or (the mining loop) not
    come back within the fuel given. *)
Inductive exn := UnicodeEncodeError | IndexError.

Inductive run (A : Type) : Type :=
| Returns (a : A)
| Raises (e : exn)
| OutOfFuel.
Arguments Returns {A} a.
Arguments Raises {A} e.
Arguments OutOfFuel {A}.

(** [run] sequences like the source does: the first call that does not
    return ends the whole computation.  The instances give stdpp's
    [x ← m; k] notation. *)
Global Instance run_ret : MRet run := fun A a => Returns a.
Global Instance run_bind : MBind run := fun A B k m =>
  match m with
  | Returns a => k a
  | Raises e => Raises e
  | OutOfFuel => OutOfFuel
  end.

(** ** [json.dumps(..., sort_keys=True)] on the shapes the program builds *)

Module Json.

(** [py_encode_basestring_ascii], one character: the short escapes, ASCII
    printables as they are, [\uXXXX] below U+10000 and a surrogate pair of
    two [\uXXXX] above. *)
Definition escape_char (c : N) : str :=
  (if c =? 34 then [92; 34]
   else if c =? 92 then [92; 92]
   else if c =? 10 then [92; 110]
   else if c =? 13 then [92; 114]
   else if c =? 9 then [92; 116]
   else if c =? 8 then [92; 98]
   else if c =? 12 then [92; 102]
   else if (32 <=? c) && (c <=? 126) then [c]
   else if c <? 65536 then [92; 117] ++ hex_fixed 4 c
   else
     let n := c - 65536 in
     let s1 := N.lor 55296 (N.land (N.shiftr n 10) 1023) in
     let s2 := N.lor 56320 (N.land n 1023) in
     [92; 117] ++ hex_fixed 4 s1 ++ [92; 117] ++ hex_fixed 4 s2)%N.

Definition dumps_str (s : str) : str :=
  [34%N] ++ (s ≫= escape_char) ++ [34%N].

Definition dumps_bool (b : bool) : str :=
  if b then lit "true" else lit "false".

(** [float.__repr__], but for the three floats that are not finite, which
    [json] writes as the JavaScript names. *)
Definition dumps_float (x : pyfloat) : str :=
  let r := float_repr x in
  if String.eqb r "inf" then lit "Infinity"
  else if String.eqb r "-inf" then lit "-Infinity"
  else if String.eqb r "nan" then lit "NaN"
  else lit r.

(** ["key": value] *)
Definition item (key : string) (value : str) : str :=
  [34%N] ++ lit key ++ [34%N] ++ lit ": " ++ value.

(** [", ".join(parts)] *)
Fixpoint join (parts : list str) : str :=
  match parts with
  | [] => []
  | [p] => p
  | p :: rest => p ++ lit ", " ++ join rest
  end.

Definition dumps_dict (items : list str) : str :=
  lit "{" ++ join items ++ lit "}".

Definition dumps_list (elems : list str) : str :=
  lit "[" ++ join elems ++ lit "]".

End Json.

(** ** Data models *)

Module Voter.
Record t := Make { voter_id : str; name : str; has_voted : bool }.

(** [Voter(voter_id, name)]: [has_voted] defaults to [False]. *)
Definition new (voter_id name : str) : t := Make voter_id name false.

Definition set_has_voted (b : bool) (v : t) : t :=
  Make (voter_id v) (name v) b.
End Voter.

Module Candidate.
Record t := Make { candidate_id : str; name : str }.
End Candidate.

(** The dictionaries a transaction carries: [asdict(voter)],
    [asdict(candidate)], the vote and the genesis message.  Each is a fresh
    dictionary of the field values, not a reference to the object. *)
Inductive Payload :=
| VoterDict (voter_id name : str) (has_voted : bool)
| CandidateDict (candidate_id name : str)
| VoteDict (voter_id candidate_id : str)
| GenesisDict (message : str).

Module Transaction.

Record t := Make { tx_type : str; payload : Payload; timestamp : pyfloat }.

Definition asdict_voter (v : Voter.t) : Payload :=
  VoterDict (Voter.voter_id v) (Voter.name v) (Voter.has_voted v).

Definition asdict_candidate (c : Candidate.t) : Payload :=
  CandidateDict (Candidate.candidate_id c) (Candidate.name c).

(** The three factories; [now] is the [time.time()] each reads. *)
Definition add_voter (voter : Voter.t) (now : pyfloat) : t :=
  Make (lit "ADD_VOTER") (asdict_voter voter) now.

Definition add_candidate (candidate : Candidate.t) (now : pyfloat) : t :=
  Make (lit "ADD_CANDIDATE") (asdict_candidate candidate) now.

Definition cast_vote (voter_id candidate_id : str) (now : pyfloat) : t :=
  Make (lit "CAST_VOTE") (VoteDict voter_id candidate_id) now.

(** [json.dumps] of a payload, keys sorted. *)
Definition dumps_payload (p : Payload) : str :=
  match p with
  | VoterDict voter_id name has_voted =>
      Json.dumps_dict
        [Json.item "has_voted" (Json.dumps_bool has_voted);
         Json.item "name" (Json.dumps_str name);
         Json.item "voter_id" (Json.dumps_str voter_id)]
  | CandidateDict candidate_id name =>
      Json.dumps_dict
        [Json.item "candidate_id" (Json.dumps_str candidate_id);
         Json.item "name" (Json.dumps_str name)]
  | VoteDict voter_id candidate_id =>
      Json.dumps_dict
        [Json.item "candidate_id" (Json.dumps_str candidate_id);
         Json.item "voter_id" (Json.dumps_str voter_id)]
  | GenesisDict message =>
      Json.dumps_dict [Json.item "message" (Json.dumps_str message)]
  end.

(** [json.dumps(asdict(tx), sort_keys=True)]. *)
Definition dumps (tx : t) : str :=
  Json.dumps_dict
    [Json.item "payload" (dumps_payload (payload tx));
     Json.item "timestamp" (Json.dumps_float (timestamp tx));
     Json.item "tx_type" (Json.dumps_str (tx_type tx))].

End Transaction.

(** ** [class Block] *)

Module Block.

Record t := Make
  { index : Z;
    timestamp : pyfloat;
    transactions : list Transaction.t;
    previous_hash : str;
    nonce : Z;
    difficulty : Z;
    hash : str }.

Definition set_index (v : Z) (b : t) : t :=
  Make v (timestamp b) (transactions b) (previous_hash b) (nonce b) (difficulty b) (hash b).
Definition set_timestamp (v : pyfloat) (b : t) : t :=
  Make (index b) v (transactions b) (previous_hash b) (nonce b) (difficulty b) (hash b).
Definition set_transactions (v : list Transaction.t) (b : t) : t :=
  Make (index b) (timestamp b) v (previous_hash b) (nonce b) (difficulty b) (hash b).
Definition set_previous_hash (v : str) (b : t) : t :=
  Make (index b) (timestamp b) (transactions b) v (nonce b) (difficulty b) (hash b).
Definition set_nonce (v : Z) (b : t) : t :=
  Make (index b) (timestamp b) (transactions b) (previous_hash b) v (difficulty b) (hash b).
Definition set_difficulty (v : Z) (b : t) : t :=
  Make (index b) (timestamp b) (transactions b) (previous_hash b) (nonce b) v (hash b).
Definition set_hash (v : str) (b : t) : t :=
  Make (index b) (timestamp b) (transactions b) (previous_hash b) (nonce b) (difficulty b) v.

(** [tx_str] of [calculate_hash]. *)
Definition tx_str (self : t) : str :=
  Json.dumps_list (Transaction.dumps <$> transactions self).

(** The f-string of [calculate_hash]: the six fields, one after the other
    with nothing between them. *)
Definition block_string (self : t) : str :=
  of_int (index self) ++ lit (float_repr (timestamp self)) ++ tx_str self
    ++ previous_hash self ++ of_int (nonce self) ++ of_int (difficulty self).

(** [calculate_hash]; [None] when [encode] raises. *)
Definition calculate_hash (self : t) : option str :=
  SHA256.hexdigest <$> encode (block_string self).

(** The loop of [mine_block], entered with the hash [h] of the current
    nonce; [fuel] bounds the number of increments. *)
Fixpoint mine_loop (fuel : nat) (prefix : str) (self : t) (h : str) : run (str * t) :=
  if startswith h prefix then Returns (h, self)
  else
    match fuel with
    | O => OutOfFuel
    | S fuel' =>
        let self' := set_nonce (nonce self + 1) self in
        match calculate_hash self' with
        | None => Raises UnicodeEncodeError
        | Some h' => mine_loop fuel' prefix self' h'
        end
    end.

(** [mine_block]: the hash found, and [self] with the nonce it was found
    at. *)
Definition mine_block (fuel : nat) (self : t) : run (str * t) :=
  let prefix := times 48%N (difficulty self) in
  match calculate_hash self with
  | None => Raises UnicodeEncodeError
  | Some h => mine_loop fuel prefix self h
  end.

(** [Block(index, transactions, previous_hash, difficulty)]; [now] is the
    one [time.time()] the constructor reads.  The [hash] attribute does not
    exist until [mine_block] has returned; the record holds the empty
    string until then, and [calculate_hash] never reads it. *)
Definition init (fuel : nat) (index : Z) (transactions : list Transaction.t)
    (previous_hash : str) (difficulty : Z) (now : pyfloat) : run t :=
  let self := Make index now transactions previous_hash 0 difficulty [] in
  '(h, self) ← mine_block fuel self;
  Returns (set_hash h self).

End Block.

(** ** [class Blockchain] *)

(** What a mutating operation reports.  The source returns [False] after
    printing one of six messages, or [True]; the messages are named here as
    the specification names them:
    - [EmptyField]: "... ID and name cannot be empty."
    - [DuplicateVoterId]: "Duplicate Voter ID '...'."
    - [DuplicateCandidateId]: "Duplicate Candidate ID '...'."
    - [UnknownVoter]: "Voter '...' not found."
    - [UnknownCandidate]: "Candidate '...' not found."
    - [AlreadyVoted]: "Double-voting is not allowed." *)
Inductive Error :=
| EmptyField
| DuplicateVoterId
| DuplicateCandidateId
| UnknownVoter
| UnknownCandidate
| AlreadyVoted.

Inductive Result := Success | Failure (e : Error).

(** The [bool] the source returns. *)
Definition returned (r : Result) : bool :=
  match r with Success => true | Failure _ => false end.

(** What [validate_chain] prints before returning; [i] is the index in the
    message.  [Crashed i e]: an exception left the loop at iteration [i]. *)
Inductive Verdict :=
| Valid
| InvalidHash (i : nat)
| InvalidProofOfWork (i : nat)
| InvalidLink (i : nat)
| Crashed (i : nat) (e : exn).

(** The [bool] [validate_chain] returns ([None]: it raised). *)
Definition verdict_bool (v : Verdict) : option bool :=
  match v with
  | Valid => Some true
  | Crashed _ _ => None
  | _ => Some false
  end.

Module Blockchain.

Record t := Make
  { difficulty : Z;
    chain : list Block.t;
    voters : gmap str Voter.t;
    candidates : gmap str Candidate.t }.

Definition set_chain (v : list Block.t) (self : t) : t :=
  Make (difficulty self) v (voters self) (candidates self).
Definition set_voters (v : gmap str Voter.t) (self : t) : t :=
  Make (difficulty self) (chain self) v (candidates self).
Definition set_candidates (v : gmap str Candidate.t) (self : t) : t :=
  Make (difficulty self) (chain self) (voters self) v.

(** [_create_genesis_block]; [t_tx] and [t_block] are the two clock
    readings, in the order they are taken. *)
Definition _create_genesis_block (fuel : nat) (difficulty : Z)
    (t_tx t_block : pyfloat) : run Block.t :=
  let genesis_tx :=
    Transaction.Make (lit "GENESIS") (GenesisDict (lit "Voting chain initiated")) t_tx in
  Block.init fuel 0 [genesis_tx] (times 48%N 64) difficulty t_block.

(** [Blockchain(difficulty)]. *)
Definition init (fuel : nat) (difficulty : Z) (t_tx t_block : pyfloat) : run t :=
  genesis ← _create_genesis_block fuel difficulty t_tx t_block;
  Returns (Make difficulty [genesis] ∅ ∅).

(** [get_latest_block]: [self.chain[-1]]. *)
Definition get_latest_block (self : t) : run Block.t :=
  match last (chain self) with
  | Some b => Returns b
  | None => Raises IndexError
  end.

(** [_add_block]; the arguments of [Block(...)] are evaluated before the
    constructor runs. *)
Definition _add_block (fuel : nat) (self : t) (txs : list Transaction.t)
    (t_block : pyfloat) : run (Block.t * t) :=
  let index := Z.of_nat (length (chain self)) in
  latest ← get_latest_block self;
  b ← Block.init fuel index txs (Block.hash latest) (difficulty self) t_block;
  Returns (b, set_chain (chain self ++ [b]) self).

(** [not s] for a string. *)
Definition is_empty (s : str) : bool :=
  match s with [] => true | _ => false end.

Definition add_voter (fuel : nat) (self : t) (voter_id name : str)
    (t_tx t_block : pyfloat) : run (Result * t) :=
  let voter_id := strip voter_id in
  let name := strip name in
  if is_empty voter_id || is_empty name then
    Returns (Failure EmptyField, self)
  else if decide (is_Some (voters self !! voter_id)) then
    Returns (Failure DuplicateVoterId, self)
  else
    let voter := Voter.new voter_id name in
    let self := set_voters (<[voter_id := voter]> (voters self)) self in
    '(_, self) ← _add_block fuel self [Transaction.add_voter voter t_tx] t_block;
    Returns (Success, self).

Definition add_candidate (fuel : nat) (self : t) (candidate_id name : str)
    (t_tx t_block : pyfloat) : run (Result * t) :=
  let candidate_id := strip candidate_id in
  let name := strip name in
  if is_empty candidate_id || is_empty name then
    Returns (Failure EmptyField, self)
  else if decide (is_Some (candidates self !! candidate_id)) then
    Returns (Failure DuplicateCandidateId, self)
  else
    let candidate := Candidate.Make candidate_id name in
    let self := set_candidates (<[candidate_id := candidate]> (candidates self)) self in
    '(_, self) ← _add_block fuel self [Transaction.add_candidate candidate t_tx] t_block;
    Returns (Success, self).

Definition cast_vote (fuel : nat) (self : t) (voter_id candidate_id : str)
    (t_tx t_block : pyfloat) : run (Result * t) :=
  let voter_id := strip voter_id in
  let candidate_id := strip candidate_id in
  match voters self !! voter_id with
  | None => Returns (Failure UnknownVoter, self)
  | Some voter =>
      if decide (candidates self !! candidate_id = None) then
        Returns (Failure UnknownCandidate, self)
      else if Voter.has_voted voter then
        Returns (Failure AlreadyVoted, self)
      else
        let self :=
          set_voters (<[voter_id := Voter.set_has_voted true voter]> (voters self)) self in
        '(_, self) ← _add_block fuel self
                       [Transaction.cast_vote voter_id candidate_id t_tx] t_block;
        Returns (Success, self)
  end.

(** One iteration of the loop of [validate_chain]: [None] to go on to the
    next index. *)
Definition check_block (prefix : str) (i : nat) (cur prev : Block.t) : option Verdict :=
  match Block.calculate_hash cur with
  | None => Some (Crashed i UnicodeEncodeError)
  | Some h =>
      if negb (bool_decide (Block.hash cur = h)) then Some (InvalidHash i)
      else if negb (startswith (Block.hash cur) prefix) then Some (InvalidProofOfWork i)
      else if negb (bool_decide (Block.previous_hash cur = Block.hash prev))
      then Some (InvalidLink i)
      else None
  end.

(** [for i in range(i, i + n)]: the body on [chain[i]] and [chain[i-1]]. *)
Fixpoint validate_loop (prefix : str) (chain : list Block.t) (i n : nat) : Verdict :=
  match n with
  | O => Valid
  | S n' =>
      match chain !! i, chain !! (i - 1)%nat with
      | Some cur, Some prev =>
          match check_block prefix i cur prev with
          | Some v => v
          | None => validate_loop prefix chain (S i) n'
          end
      | _, _ => Crashed i IndexError
      end
  end.

(** [validate_chain]: [range(1, len(self.chain))]. *)
Definition validate_chain (self : t) : Verdict :=
  let prefix := times 48%N (difficulty self) in
  validate_loop prefix (chain self) 1 (length (chain self) - 1).

End Blockchain.


(** ** Vocabulary of the properties *)

(** *** Text that always encodes

    Every character below U+0800: UTF-8 has one or two bytes for it. *)

Definition low (s : str) : Prop := Forall (λ c, (c < 2048)%N) s.

(** *** Mining as a search over nonces *)

Module Mining.

(** The hash [calculate_hash] gives once the nonce of [self] is [n]. *)
Definition attempt (self : Block.t) (n : Z) : option str :=
  Block.calculate_hash (Block.set_nonce n self).

(** The proof-of-work target of [self]: ["0" * self.difficulty]. *)
Definition target (self : Block.t) : str := times 48%N (Block.difficulty self).

(** Nonce [n] gives a hash that starts with the target. *)
Definition meets (self : Block.t) (n : Z) : bool :=
  match attempt self n with
  | Some h => startswith h (target self)
  | None => false
  end.

(** [k] increments from the nonce of [self] reach the first nonce that meets
    the target. *)
Definition first_hit (self : Block.t) (k : nat) : Prop :=
  meets self (Block.nonce self + Z.of_nat k) = true
  ∧ ∀ j : nat, (j < k)%nat → meets self (Block.nonce self + Z.of_nat j) = false.

(** The object [Block.__init__] has built when it calls [mine_block]. *)
Definition candidate (index : Z) (transactions : list Transaction.t)
    (previous_hash : str) (difficulty : Z) (now : pyfloat) : Block.t :=
  Block.Make index now transactions previous_hash 0 difficulty [].


End Mining.

(** *** Blocks whose block string can be written

    The three ints of the block are ints the f-string of [calculate_hash]
    converts. *)


(** *** Ledgers the three operations can produce *)

Inductive reachable : Blockchain.t → Prop :=
| reach_init fuel difficulty t_tx t_block L :
    Blockchain.init fuel difficulty t_tx t_block = Returns L →
    reachable L
| reach_add_voter fuel L voter_id name t_tx t_block r L' :
    reachable L →
    Blockchain.add_voter fuel L voter_id name t_tx t_block = Returns (r, L') →
    reachable L'
| reach_add_candidate fuel L candidate_id name t_tx t_block r L' :
    reachable L →
    Blockchain.add_candidate fuel L candidate_id name t_tx t_block = Returns (r, L') →
    reachable L'
| reach_cast_vote fuel L voter_id candidate_id t_tx t_block r L' :
    reachable L →
    Blockchain.cast_vote fuel L voter_id candidate_id t_tx t_block = Returns (r, L') →
    reachable L'.

(** What holds of every block of a chain the ledger has built. *)
Record chain_ok (L : Blockchain.t) : Prop := ChainOk
  { ok_nonempty : Blockchain.chain L ≠ [];
    ok_hash : ∀ i b, Blockchain.chain L !! i = Some b →
        Block.calculate_hash b = Some (Block.hash b);
    ok_pow : ∀ i b, Blockchain.chain L !! i = Some b →
        startswith (Block.hash b) (times 48%N (Blockchain.difficulty L)) = true;
    ok_link : ∀ i b p, Blockchain.chain L !! S i = Some b →
        Blockchain.chain L !! i = Some p →
        Block.previous_hash b = Block.hash p }.

(** *** Replaying the chain

    The source keeps the two tables as it goes and has no function that
    rebuilds them.  This is the replay the specification describes: the
    transactions of the chain in order from genesis, an [ADD_VOTER] or
    [ADD_CANDIDATE] entering the record its payload holds under its id, a
    [CAST_VOTE] setting [has_voted] of the voter it names; anything else
    (the genesis transaction) changes nothing. *)

Module Replay.




End Replay.

(** *** Tampering with one stored field of one block *)

Module Tamper.

Inductive field :=
| FIndex | FTimestamp | FPayloadValue | FPreviousHash | FNonce | FDifficulty | FHash.

(** One value of a payload dictionary replaced by a different one. *)
Inductive payload_change : Payload → Payload → Prop :=
| pc_voter_id v v' name has_voted :
    v ≠ v' → payload_change (VoterDict v name has_voted) (VoterDict v' name has_voted)
| pc_voter_name voter_id n n' has_voted :
    n ≠ n' → payload_change (VoterDict voter_id n has_voted) (VoterDict voter_id n' has_voted)
| pc_voter_has_voted voter_id name h h' :
    h ≠ h' → payload_change (VoterDict voter_id name h) (VoterDict voter_id name h')
| pc_candidate_id c c' name :
    c ≠ c' → payload_change (CandidateDict c name) (CandidateDict c' name)
| pc_candidate_name candidate_id n n' :
    n ≠ n' → payload_change (CandidateDict candidate_id n) (CandidateDict candidate_id n')
| pc_vote_voter v v' candidate_id :
    v ≠ v' → payload_change (VoteDict v candidate_id) (VoteDict v' candidate_id)
| pc_vote_candidate voter_id c c' :
    c ≠ c' → payload_change (VoteDict voter_id c) (VoteDict voter_id c')
| pc_message m m' :
    m ≠ m' → payload_change (GenesisDict m) (GenesisDict m').

(** The payload of one transaction of the list changed in one value. *)
Inductive transactions_change : list Transaction.t → list Transaction.t → Prop :=
| tc_at before tx after p' :
    payload_change (Transaction.payload tx) p' →
    transactions_change
      (before ++ tx :: after)
      (before ++ Transaction.Make (Transaction.tx_type tx) p' (Transaction.timestamp tx) :: after).

(** [change f b b']: [b'] is [b] with the stored field [f] given another
    value, and every other field as it was. *)
Inductive change : field → Block.t → Block.t → Prop :=
| ch_index b v : v ≠ Block.index b → change FIndex b (Block.set_index v b)
| ch_timestamp b v : v ≠ Block.timestamp b → change FTimestamp b (Block.set_timestamp v b)
| ch_payload b txs :
    transactions_change (Block.transactions b) txs →
    change FPayloadValue b (Block.set_transactions txs b)
| ch_previous_hash b v :
    v ≠ Block.previous_hash b → change FPreviousHash b (Block.set_previous_hash v b)
| ch_nonce b v : v ≠ Block.nonce b → change FNonce b (Block.set_nonce v b)
| ch_difficulty b v : v ≠ Block.difficulty b → change FDifficulty b (Block.set_difficulty v b)
| ch_hash b v : v ≠ Block.hash b → change FHash b (Block.set_hash v b).





End Tamper.

(** ** A session, run

    Difficulty 1; the clock readings are written out.  Each ledger is the
    value the operation before it returned. *)

Module Demo.

Definition unrun : Blockchain.t := Blockchain.Make 0 [] ∅ ∅.

(** The ledger a call returned ([unrun] if it did not return). *)
Definition ledger_of (m : run (Result * Blockchain.t)) : Blockchain.t :=
  match m with Returns (_, L) => L | _ => unrun end.

Definition fresh : Blockchain.t :=
  Eval vm_compute in
    match Blockchain.init 64 1 (Float "1700000000.5") (Float "1700000000.75") with
    | Returns L => L
    | _ => unrun
    end.

(** [add_candidate(" C1 ", "Rose")] *)
Definition with_candidate : Blockchain.t :=
  Eval vm_compute in
    ledger_of (Blockchain.add_candidate 64 fresh (lit " C1 ") (lit "Rose")
                 (Float "1700000001.5") (Float "1700000001.75")).

(** [add_voter(" V1 ", " Alice ")] *)
Definition with_voter : Blockchain.t :=
  Eval vm_compute in
    ledger_of (Blockchain.add_voter 64 with_candidate (lit " V1 ") (lit " Alice ")
                 (Float "1700000002.5") (Float "1700000002.75")).

(** [cast_vote("V1", "C1")] *)
Definition voted : Blockchain.t :=
  Eval vm_compute in
    ledger_of (Blockchain.cast_vote 64 with_voter (lit "V1") (lit "C1")
                 (Float "1700000003.5") (Float "1700000003.75")).

(** The blocks of [voted], by position. *)
Definition block_at (L : Blockchain.t) (i : nat) : Block.t :=
  default (Block.Make 0 (Float "") [] [] 0 0 []) (Blockchain.chain L !! i).





(** A third session: on [fresh], the string [X1] registered as a voter id
    and then as a candidate id. *)
Definition x1_voter : Blockchain.t :=
  Eval vm_compute in
    ledger_of (Blockchain.add_voter 64 fresh (lit "X1") (lit "Ann")
                 (Float "1700000005.5") (Float "1700000005.75")).

Definition x1_both : Blockchain.t :=
  Eval vm_compute in
    ledger_of (Blockchain.add_candidate 64 x1_voter (lit "X1") (lit "Ann")
                 (Float "1700000006.5") (Float "1700000006.75")).

(** [voted] with its genesis block overwritten in every field but the
    stored hash. *)
Definition forged_genesis : Block.t :=
  Block.Make 7 (Float "0.0") [] (lit "no such hash") (-1) 9
    (Block.hash (block_at voted 0)).

End Demo.

(** ** More vocabulary: histories, the chain read back, the menu *)

(** *** Ledgers later in the same history *)

Inductive evolves (L : Blockchain.t) : Blockchain.t → Prop :=
| ev_here : evolves L L
| ev_add_voter fuel L1 voter_id name t_tx t_block r L2 :
    evolves L L1 →
    Blockchain.add_voter fuel L1 voter_id name t_tx t_block = Returns (r, L2) →
    evolves L L2
| ev_add_candidate fuel L1 candidate_id name t_tx t_block r L2 :
    evolves L L1 →
    Blockchain.add_candidate fuel L1 candidate_id name t_tx t_block = Returns (r, L2) →
    evolves L L2
| ev_cast_vote fuel L1 voter_id candidate_id t_tx t_block r L2 :
    evolves L L1 →
    Blockchain.cast_vote fuel L1 voter_id candidate_id t_tx t_block = Returns (r, L2) →
    evolves L L2.

(** [L'] keeps all of [L]: the chain of [L] is the beginning of its chain,
    the difficulty is the same, every candidate is still there as it was,
    and every voter is still there with the same id and name and, once
    [has_voted] is set, with [has_voted] set. *)
Definition extends (L L' : Blockchain.t) : Prop :=
  Blockchain.chain L `prefix_of` Blockchain.chain L'
  ∧ Blockchain.difficulty L' = Blockchain.difficulty L
  ∧ (∀ k c, Blockchain.candidates L !! k = Some c →
       Blockchain.candidates L' !! k = Some c)
  ∧ (∀ k v, Blockchain.voters L !! k = Some v →
       ∃ v', Blockchain.voters L' !! k = Some v'
         ∧ Voter.voter_id v' = Voter.voter_id v
         ∧ Voter.name v' = Voter.name v
         ∧ (Voter.has_voted v = true → Voter.has_voted v' = true)).

(** *** What the chain records *)

Module Chain.

(** The transactions of the chain, in chain order. *)
Definition txs (chain : list Block.t) : list Transaction.t :=
  chain ≫= Block.transactions.

(** The vote a transaction carries: voter id and candidate id. *)
Definition vote_of (tx : Transaction.t) : option (str * str) :=
  match Transaction.payload tx with
  | VoteDict voter_id candidate_id => Some (voter_id, candidate_id)
  | _ => None
  end.

(** The votes of the chain, in chain order. *)
Definition votes (chain : list Block.t) : list (str * str) :=
  omap vote_of (txs chain).

(** The candidates [voter_id] voted for, in chain order. *)
Definition votes_by (chain : list Block.t) (voter_id : str) : list str :=
  snd <$> filter (λ vc, fst vc = voter_id) (votes chain).

(** The four transactions the program writes: the type names the payload,
    and a voter enters the chain with [has_voted] unset. *)
Inductive written : Transaction.t → Prop :=
| wr_genesis now :
    written (Transaction.Make (lit "GENESIS")
               (GenesisDict (lit "Voting chain initiated")) now)
| wr_add_voter voter_id name now :
    written (Transaction.Make (lit "ADD_VOTER") (VoterDict voter_id name false) now)
| wr_add_candidate candidate_id name now :
    written (Transaction.Make (lit "ADD_CANDIDATE")
               (CandidateDict candidate_id name) now)
| wr_cast_vote voter_id candidate_id now :
    written (Transaction.Make (lit "CAST_VOTE") (VoteDict voter_id candidate_id) now).

(** The block at position [i] of a chain of a ledger of difficulty [d]:
    numbered [i], at that difficulty, with a nonce counted up from 0, and
    holding one transaction, the genesis one exactly at position 0, where
    the previous hash is 64 zeros. *)
Definition block_shape (d : Z) (i : nat) (b : Block.t) : Prop :=
  Block.index b = Z.of_nat i
  ∧ Block.difficulty b = d
  ∧ 0 ≤ Block.nonce b
  ∧ (i = 0%nat → Block.previous_hash b = times 48%N 64)
  ∧ ∃ tx, Block.transactions b = [tx] ∧ written tx
      ∧ (Transaction.tx_type tx = lit "GENESIS" ↔ i = 0%nat).

(** A lower-case hexadecimal digit. *)
Definition hexchar (c : N) : Prop :=
  (48 ≤ c ≤ 57)%N ∨ (97 ≤ c ≤ 102)%N.

(** 64 lower-case hexadecimal digits. *)
Definition hex64 (s : str) : Prop := length s = 64%nat ∧ Forall hexchar s.

(** [s] neither starts nor ends with a whitespace character. *)
Definition stripped (s : str) : Prop :=
  (∀ c, head s = Some c → isspace c = false)
  ∧ (∀ c, last s = Some c → isspace c = false).

End Chain.

(** The votes of a voter against the voters table. *)
Definition tallied (L : Blockchain.t) (voter_id : str) : Prop :=
  match Blockchain.voters L !! voter_id with
  | Some v =>
      if Voter.has_voted v
      then ∃ c, Chain.votes_by (Blockchain.chain L) voter_id = [c]
             ∧ is_Some (Blockchain.candidates L !! c)
      else Chain.votes_by (Blockchain.chain L) voter_id = []
  | None => Chain.votes_by (Blockchain.chain L) voter_id = []
  end.


(** *** What the operations print

    Each path of [add_voter], [add_candidate], [cast_vote] and
    [validate_chain] ends with one [print], the last statement before the
    [return].  [print(text)] writes to [sys.stdout], which may refuse: it
    raises [UnicodeEncodeError] for a text the encoding of the stream cannot
    write, or the error of a stream that is closed or broken.  A [stdout]
    says, for one call of [print], which texts the stream takes.  An
    exception leaves the ledger as it is at that moment. *)

Module Printed.

Definition stdout : Type := str → bool.

(** A stream with the UTF-8 encoding and the strict error handler. *)
Definition utf8 : stdout := λ text, bool_decide (is_Some (encode text)).

(** What a call does: it returns [r]; or its [print] raises, [r] being what
    it was about to return; or [_add_block] or [calculate_hash] raises; or
    its mining loop is still searching when the fuel ends. *)
Inductive outcome :=
| Returned (r : bool) (self : Blockchain.t)
| PrintRaised (text : str) (r : bool) (self : Blockchain.t)
| HashRaised (e : exn) (self : Blockchain.t)
| StillMining.

(** [print(text); return r]. *)
Definition print (out : stdout) (text : str) (r : bool) (self : Blockchain.t) : outcome :=
  if out text then Returned r self else PrintRaised text r self.

(** U+274C and U+2705, the marks the messages start with, and U+2192. *)
Definition cross : str := [10060%N].
Definition check : str := [9989%N].
Definition arrow : str := [8594%N].

Definition add_voter (out : stdout) (fuel : nat) (self : Blockchain.t)
    (voter_id name : str) (t_tx t_block : pyfloat) : outcome :=
  let voter_id := strip voter_id in
  let name := strip name in
  if Blockchain.is_empty voter_id || Blockchain.is_empty name then
    print out (cross ++ lit " Voter ID and name cannot be empty.") false self
  else if decide (is_Some (Blockchain.voters self !! voter_id)) then
    print out (cross ++ lit " Duplicate Voter ID '" ++ voter_id ++ lit "'.") false self
  else
    let voter := Voter.new voter_id name in
    let self :=
      Blockchain.set_voters (<[voter_id := voter]> (Blockchain.voters self)) self in
    match Blockchain._add_block fuel self [Transaction.add_voter voter t_tx] t_block with
    | Returns (_, self) =>
        print out (check ++ lit " Voter '" ++ name ++ lit "' (" ++ voter_id
                     ++ lit ") added.") true self
    | Raises e => HashRaised e self
    | OutOfFuel => StillMining
    end.

Definition add_candidate (out : stdout) (fuel : nat) (self : Blockchain.t)
    (candidate_id name : str) (t_tx t_block : pyfloat) : outcome :=
  let candidate_id := strip candidate_id in
  let name := strip name in
  if Blockchain.is_empty candidate_id || Blockchain.is_empty name then
    print out (cross ++ lit " Candidate ID and name cannot be empty.") false self
  else if decide (is_Some (Blockchain.candidates self !! candidate_id)) then
    print out (cross ++ lit " Duplicate Candidate ID '" ++ candidate_id ++ lit "'.")
      false self
  else
    let candidate := Candidate.Make candidate_id name in
    let self :=
      Blockchain.set_candidates
        (<[candidate_id := candidate]> (Blockchain.candidates self)) self in
    match Blockchain._add_block fuel self
            [Transaction.add_candidate candidate t_tx] t_block with
    | Returns (_, self) =>
        print out (check ++ lit " Candidate '" ++ name ++ lit "' (" ++ candidate_id
                     ++ lit ") added.") true self
    | Raises e => HashRaised e self
    | OutOfFuel => StillMining
    end.

Definition cast_vote (out : stdout) (fuel : nat) (self : Blockchain.t)
    (voter_id candidate_id : str) (t_tx t_block : pyfloat) : outcome :=
  let voter_id := strip voter_id in
  let candidate_id := strip candidate_id in
  match Blockchain.voters self !! voter_id with
  | None => print out (cross ++ lit " Voter '" ++ voter_id ++ lit "' not found.") false self
  | Some voter =>
      if decide (Blockchain.candidates self !! candidate_id = None) then
        print out (cross ++ lit " Candidate '" ++ candidate_id ++ lit "' not found.")
          false self
      else if Voter.has_voted voter then
        print out (cross ++ lit " Double-voting is not allowed.") false self
      else
        let self :=
          Blockchain.set_voters
            (<[voter_id := Voter.set_has_voted true voter]> (Blockchain.voters self))
            self in
        match Blockchain._add_block fuel self
                [Transaction.cast_vote voter_id candidate_id t_tx] t_block with
        | Returns (_, self) =>
            print out (check ++ lit " Vote cast: " ++ voter_id ++ lit " " ++ arrow
                         ++ lit " " ++ candidate_id) true self
        | Raises e => HashRaised e self
        | OutOfFuel => StillMining
        end
  end.

(** [validate_chain], with the message of each verdict. *)
Definition validate_chain (out : stdout) (self : Blockchain.t) : outcome :=
  match Blockchain.validate_chain self with
  | Valid => print out (check ++ lit " Blockchain is valid.") true self
  | InvalidHash i =>
      print out (cross ++ lit " Invalid block hash at index " ++ of_int (Z.of_nat i)
                   ++ lit ".") false self
  | InvalidProofOfWork i =>
      print out (cross ++ lit " Invalid proof-of-work at index " ++ of_int (Z.of_nat i)
                   ++ lit ".") false self
  | InvalidLink i =>
      print out (cross ++ lit " Invalid previous_hash link at index "
                   ++ of_int (Z.of_nat i) ++ lit ".") false self
  | Crashed _ e => HashRaised e self
  end.

(** The call agrees with the operation taken without its [print]: what it
    returns, the operation returns; when its [print] raises, the stream
    refused the text and the ledger is left as the operation returns it,
    changed if the operation succeeded; and nothing else raises. *)
Definition agrees (out : stdout) (o : outcome) (pure : run (Result * Blockchain.t))
    : Prop :=
  match o with
  | Returned r self => ∃ res, pure = Returns (res, self) ∧ returned res = r
  | PrintRaised text r self =>
      out text = false ∧ ∃ res, pure = Returns (res, self) ∧ returned res = r
  | HashRaised _ _ => False
  | StillMining => pure = OutOfFuel
  end.

(** [py_encode_basestring], one character: what [json.dumps] writes with
    [ensure_ascii=False]. *)
Definition escape_char (c : N) : str :=
  (if c =? 34 then [92; 34]
   else if c =? 92 then [92; 92]
   else if c =? 10 then [92; 110]
   else if c =? 13 then [92; 114]
   else if c =? 9 then [92; 116]
   else if c =? 8 then [92; 98]
   else if c =? 12 then [92; 102]
   else if c <? 32 then [92; 117] ++ hex_fixed 4 c
   else [c])%N.

Definition dumps_str (s : str) : str :=
  [34%N] ++ (s ≫= escape_char) ++ [34%N].

(** [json.dumps(payload, ensure_ascii=False)]: the keys in the order the
    dictionary was built in. *)
Definition dumps_payload (p : Payload) : str :=
  match p with
  | VoterDict voter_id name has_voted =>
      Json.dumps_dict
        [Json.item "voter_id" (dumps_str voter_id);
         Json.item "name" (dumps_str name);
         Json.item "has_voted" (Json.dumps_bool has_voted)]
  | CandidateDict candidate_id name =>
      Json.dumps_dict
        [Json.item "candidate_id" (dumps_str candidate_id);
         Json.item "name" (dumps_str name)]
  | VoteDict voter_id candidate_id =>
      Json.dumps_dict
        [Json.item "voter_id" (dumps_str voter_id);
         Json.item "candidate_id" (dumps_str candidate_id)]
  | GenesisDict message =>
      Json.dumps_dict [Json.item "message" (dumps_str message)]
  end.

(** One step of [print_blockchain]: a [print], or a call of
    [time.localtime] or [time.strftime] that raises for the timestamp. *)
Inductive action := Say (text : str) | NoTime (t : pyfloat).

(** [time.strftime('%Y-%m-%d %H:%M:%S', time.localtime(t))], then the rest;
    [localtime t] is its text, [None] when it raises. *)
Definition when (localtime : pyfloat → option str) (t : pyfloat)
    (rest : str → list action) : list action :=
  match localtime t with
  | Some text => rest text
  | None => [NoTime t]
  end.

(** The body of the inner loop of [print_blockchain]. *)
Definition tx_actions (localtime : pyfloat → option str) (tx : Transaction.t)
    : list action :=
  when localtime (Transaction.timestamp tx) (λ w,
    [Say (lit "  - " ++ Transaction.tx_type tx ++ lit " @ " ++ w ++ lit " -> "
            ++ dumps_payload (Transaction.payload tx))]).

(** The body of the outer loop, on [block.to_dict()]. *)
Definition block_actions (localtime : pyfloat → option str) (b : Block.t)
    : list action :=
  Say ([10%N] ++ lit "Block #" ++ of_int (Block.index b))
  :: when localtime (Block.timestamp b) (λ w,
       [Say (lit " Timestamp : " ++ w);
        Say (lit " Prev Hash : " ++ Block.previous_hash b);
        Say (lit " Nonce     : " ++ of_int (Block.nonce b));
        Say (lit " Difficulty: " ++ of_int (Block.difficulty b));
        Say (lit " Hash      : " ++ Block.hash b);
        Say (lit " Transactions:")]
       ++ (Block.transactions b ≫= tx_actions localtime)).

(** [print_blockchain]: its steps in order; the first that raises ends
    it. *)
Definition print_blockchain (localtime : pyfloat → option str) (self : Blockchain.t)
    : list action :=
  Say ([10%N] ++ lit "========== BLOCKCHAIN ==========")
  :: (Blockchain.chain self ≫= block_actions localtime)
  ++ [Say (lit "================================" ++ [10%N])].

(** The text of [print_menu]. *)
Definition menu : str :=
  [10%N] ++ lit "================ VOTING SYSTEM ================" ++ [10%N]
  ++ lit "1. Add Candidate" ++ [10%N]
  ++ lit "2. Add Voter" ++ [10%N]
  ++ lit "3. Cast Vote" ++ [10%N]
  ++ lit "4. Print Blockchain" ++ [10%N]
  ++ lit "5. Validate Chain" ++ [10%N]
  ++ lit "6. Exit" ++ [10%N]
  ++ lit "===============================================" ++ [10%N].

End Printed.

(** *** [main]

    The loop of [main] against its environment.  [clock k] is the value of
    the [k]-th call of [time.time()]; [stdout k] is [sys.stdout] at the
    [k]-th call of [print]; [localtime] is the time conversion of
    [print_blockchain]; the standard input is the list of what the calls of
    [input()] give, a line or an exception ([None]: [UnicodeDecodeError],
    [KeyboardInterrupt] at the prompt, an error writing the prompt), and
    [EOFError] when the list is used up.  A state counts the calls of
    [time.time()] and of [print] made so far; [fuel] is given to every
    mining loop.  Signals that arrive while the ledger works are not
    modelled. *)

Module Cli.

Record environment := Environment
  { clock : nat → pyfloat;
    stdout : nat → Printed.stdout;
    localtime : pyfloat → option str }.

(** How [main] ends: [sys.exit(code)]; an exception out of [input()], of
    [print], of the time conversion or of the ledger; or a mining loop out
    of fuel. *)
Inductive ending :=
| SystemExit (code : Z)
| EOFError
| InputRaised
| PrintRaised (text : str)
| TimeRaised (t : pyfloat)
| LedgerRaised (e : exn)
| MiningOutOfFuel.

Record state := State { ledger : Blockchain.t; ticks : nat; prints : nat }.

(** The state after [n] more calls of [print]. *)
Definition printed (n : nat) (st : state) : state :=
  State (ledger st) (ticks st) (prints st + n).

(** [print(text)] in [main] itself. *)
Definition say (env : environment) (text : str) (st : state) : option ending * state :=
  if stdout env (prints st) text then (None, printed 1 st)
  else (Some (PrintRaised text), st).

(** The steps of [print_blockchain], one after the other. *)
Fixpoint emit (env : environment) (actions : list Printed.action) (st : state)
    : option ending * state :=
  match actions with
  | [] => (None, st)
  | Printed.Say text :: rest =>
      match say env text st with
      | (None, st) => emit env rest st
      | stop => stop
      end
  | Printed.NoTime t :: _ => (Some (TimeRaised t), st)
  end.

(** The state after a call of an operation that reads the clock [reads]
    times when it builds its block. *)
Definition after (reads : nat) (st : state) (o : Printed.outcome)
    : option ending * state :=
  match o with
  | Printed.Returned r L =>
      (None, State L (if r then ticks st + reads else ticks st) (prints st + 1))
  | Printed.PrintRaised text r L =>
      (Some (PrintRaised text),
       State L (if r then ticks st + reads else ticks st) (prints st))
  | Printed.HashRaised e L =>
      (Some (LedgerRaised e), State L (ticks st + reads) (prints st))
  | Printed.StillMining => (Some MiningOutOfFuel, st)
  end.

(** Go on with [next] unless the step ended [main]. *)
Definition continue (step : option ending * state) (next : state → ending * state)
    : ending * state :=
  match step with
  | (None, st) => next st
  | (Some e, st) => (e, st)
  end.

(** [while True: ...], one iteration for each line read as a choice.  The
    state returned with an ending is the one [main] is in then. *)
Fixpoint main_loop (fuel : nat) (env : environment) (stdin : list (option str))
    (st : state) : ending * state :=
  continue (say env Printed.menu st) (λ st,
    match stdin with
    | [] => (EOFError, st)
    | None :: _ => (InputRaised, st)
    | Some line :: stdin =>
        let choice := strip line in
        let out := stdout env (prints st) in
        let t_tx := clock env (ticks st) in
        let t_block := clock env (S (ticks st)) in
        if decide (choice = lit "1") then
          match stdin with
          | Some cid :: Some name :: stdin =>
              continue
                (after 2 st (Printed.add_candidate out fuel (ledger st) cid name
                               t_tx t_block))
                (main_loop fuel env stdin)
          | None :: _ | Some _ :: None :: _ => (InputRaised, st)
          | [] | [Some _] => (EOFError, st)
          end
        else if decide (choice = lit "2") then
          match stdin with
          | Some vid :: Some name :: stdin =>
              continue
                (after 2 st (Printed.add_voter out fuel (ledger st) vid name
                               t_tx t_block))
                (main_loop fuel env stdin)
          | None :: _ | Some _ :: None :: _ => (InputRaised, st)
          | [] | [Some _] => (EOFError, st)
          end
        else if decide (choice = lit "3") then
          match stdin with
          | Some vid :: Some cid :: stdin =>
              continue
                (after 2 st (Printed.cast_vote out fuel (ledger st) vid cid
                               t_tx t_block))
                (main_loop fuel env stdin)
          | None :: _ | Some _ :: None :: _ => (InputRaised, st)
          | [] | [Some _] => (EOFError, st)
          end
        else if decide (choice = lit "4") then
          continue
            (emit env (Printed.print_blockchain (localtime env) (ledger st)) st)
            (main_loop fuel env stdin)
        else if decide (choice = lit "5") then
          continue (after 0 st (Printed.validate_chain out (ledger st)))
            (main_loop fuel env stdin)
        else if decide (choice = lit "6") then
          continue (say env ([128075%N] ++ lit " Goodbye!") st)
            (λ st, (SystemExit 0, st))
        else
          continue
            (say env (Printed.cross ++ lit " Invalid choice. Please use 1"
                        ++ [8211%N] ++ lit "6.") st)
            (main_loop fuel env stdin)
    end).

(** [main()]: [Blockchain(difficulty=3)], then the loop. *)
Definition main (fuel : nat) (env : environment) (stdin : list (option str))
    : ending * option state :=
  match Blockchain.init fuel 3 (clock env 0%nat) (clock env 1%nat) with
  | Returns L =>
      let r := main_loop fuel env stdin (State L 2 0) in (fst r, Some (snd r))
  | Raises e => (LedgerRaised e, None)
  | OutOfFuel => (MiningOutOfFuel, None)
  end.

(** A state [main] can be in: a ledger the operations produce, at
    difficulty 3, with two clock readings taken for each block. *)
Definition sound (st : state) : Prop :=
  reachable (ledger st)
  ∧ Blockchain.difficulty (ledger st) = 3
  ∧ ticks st = (2 * length (Blockchain.chain (ledger st)))%nat.

End Cli.

(** The session of [Demo] continued after the vote: a second candidate,
    [add_candidate("C2", "Lily")]. *)

Module DemoLater.

Definition with_second_candidate : Blockchain.t :=
  Eval vm_compute in
    Demo.ledger_of
      (Blockchain.add_candidate 64 Demo.voted (lit "C2") (lit "Lily")
         (Float "1700000008.5") (Float "1700000008.75")).

End DemoLater.


(** A run of [main] at its difficulty 3, on a stream that takes every text:
    a voter, a candidate, a vote, the same vote again, the chain printed, a
    validation, a choice that is none, and exit. *)

Module CliDemo.

Definition env : Cli.environment :=
  Cli.Environment
    (λ k, Float (nth k ["1700000000.5"; "1700000005.015625";
                        "1700000005.515625"; "1700000008.859375";
                        "1700000009.359375"; "1700000010.515625";
                        "1700000011.015625"; "1700000019.28125"]%string "0.0"%string))
    (λ _ _, true)
    (λ _, Some (lit "2023-11-14 22:13:20")).

Definition stdin : list (option str) :=
  Some <$>
    [lit "2"; lit " V1 "; lit "Alice";
     lit " 1 "; lit "C1"; lit "Rose";
     lit "3"; lit "V1"; lit "C1";
     lit "3"; lit "V1"; lit "C1";
     lit "4"; lit "5"; lit "9"; lit "6"; lit "never read"].

(** The ledger [main] leaves with. *)
Definition final : Blockchain.t :=
  Eval vm_compute in
    match Cli.main 32 env stdin with
    | (_, Some st) => Cli.ledger st
    | _ => Blockchain.Make 0 [] ∅ ∅
    end.

(** The session of [Demo] on a stream with the UTF-8 encoding: on the fresh
    ledger, [add_voter("V1", name)] where [name] is the lone surrogate
    U+D800.  The ledger is the one the call has built when its [print]
    raises. *)
Definition with_surrogate_name : Blockchain.t :=
  Eval vm_compute in
    Demo.ledger_of
      (Blockchain.add_voter 64 Demo.fresh (lit "V1") [55296%N]
         (Float "1700000004.5") (Float "1700000004.75")).

End CliDemo.

(** * Properties *)

(** ** Strings *)

(** The digest on the test vectors of FIPS 180-4 (one and two blocks) and
    on the empty message. *)
Example sha256_abc :
  SHA256.hexdigest (lit "abc")
  = lit "ba7816bf8f01cfea414140de5dae2223b00361a396177a9cb410ff61f20015ad".
Proof. vm_compute. reflexivity. Qed.

Example sha256_two_blocks :
  SHA256.hexdigest (lit "abcdbcdecdefdefgefghfghighijhijkijkljklmklmnlmnomnopnopq")
  = lit "248d6a61d20638b8e5c026930c3e6039a33ce45964ff2167f6ecedd419db06c1".
Proof. vm_compute. reflexivity. Qed.

Example sha256_empty :
  SHA256.hexdigest []
  = lit "e3b0c44298fc1c149afbf4c8996fb92427ae41e4649b934ca495991b7852b855".
Proof. vm_compute. reflexivity. Qed.

(** [json.dumps] of one string: the short escapes, a control character, a
    character of the Basic Multilingual Plane and one above it. *)
Example dumps_str_escapes :
  Json.dumps_str [97; 34; 92; 10; 31; 127; 233; 8232; 128512]%N
  = [34%N] ++ lit "a\" ++ [34%N]
    ++ lit "\\\n\u001f\u007f\u00e9\u2028\ud83d\ude00"
    ++ [34%N].
Proof. vm_compute. reflexivity. Qed.

Section Strings.

Implicit Types s p : str.

Lemma startswith_app s p : startswith (p ++ s) p = true.
Proof. induction p as [|c p IH]; simpl; [done|]. by rewrite decide_True. Qed.

Lemma startswith_take s p : startswith s p = true ↔ take (length p) s = p.
Proof.
  revert s. induction p as [|c p IH]; intros [|d s]; simpl; try done.
  case_decide as Hd; subst.
  - rewrite IH. split; [by intros ->|congruence].
  - split; [done|congruence].
Qed.

Lemma startswith_nil s : startswith s [] = true.
Proof. by destruct s. Qed.

Lemma length_times c n : length (times c n) = Z.to_nat n.
Proof. apply length_replicate. Qed.

Lemma encode_char_low c : (c < 2048)%N → is_Some (encode_char c).
Proof.
  intros Hc. unfold encode_char.
  destruct (N.ltb_spec c 128); [eauto|].
  destruct (N.ltb_spec c 2048); [eauto|lia].
Qed.

Lemma encode_app s1 s2 :
  encode (s1 ++ s2) =
    match encode s1, encode s2 with
    | Some b1, Some b2 => Some (b1 ++ b2)
    | _, _ => None
    end.
Proof.
  induction s1 as [|c s1 IH]; simpl.
  - by destruct (encode s2).
  - rewrite IH. destruct (encode_char c), (encode s1), (encode s2); simpl; try done.
    by rewrite (assoc_L (++)).
Qed.

Lemma encode_app_is_Some s1 s2 :
  is_Some (encode (s1 ++ s2)) ↔ is_Some (encode s1) ∧ is_Some (encode s2).
Proof.
  rewrite encode_app. destruct (encode s1), (encode s2); split;
    try (intros [H1 H2]); try (by inversion 1); try done;
    try (by destruct H1 as [? ?]); try (by destruct H2 as [? ?]).
Qed.

Lemma encode_low s : low s → is_Some (encode s).
Proof.
  induction 1 as [|c s Hc _ IH]; simpl; [eauto|].
  destruct (encode_char_low c Hc) as [b ->]. destruct IH as [bs ->]. eauto.
Qed.

Lemma low_app s1 s2 : low s1 → low s2 → low (s1 ++ s2).
Proof. apply Forall_app_2. Qed.

Lemma low_lit (x : string) : low (lit x).
Proof.
  unfold lit, low. apply Forall_fmap, Forall_forall. intros a _. simpl.
  pose proof (N_ascii_bounded a). lia.
Qed.

Lemma low_of_int n : low (of_int n).
Proof. apply low_lit. Qed.

Lemma hex_digit_low d : (d < 16)%N → (hex_digit d < 2048)%N.
Proof. unfold hex_digit. intros. destruct (N.ltb_spec d 10); lia. Qed.

Lemma low_hex_fixed k n : low (hex_fixed k n).
Proof.
  revert n. induction k as [|k IH]; intros n; simpl; [constructor|].
  apply low_app; [apply IH|]. repeat constructor. apply hex_digit_low.
  change 15%N with (N.ones 4). rewrite N.land_ones. apply N.mod_lt. done.
Qed.

Lemma low_cons c s : (c < 2048)%N → low s → low (c :: s).
Proof. by constructor. Qed.

Lemma low_escape_char c : low (Json.escape_char c).
Proof.
  unfold Json.escape_char.
  repeat (case_match; [repeat constructor; done|]).
  case_match eqn:Hc.
  { apply andb_true_iff in Hc as [_ Hc%N.leb_le]. apply low_cons; [lia|constructor]. }
  case_match;
    repeat first [apply low_hex_fixed | apply low_app
                 | apply low_cons; [done|] | apply Forall_nil_2].
Qed.

Lemma low_dumps_str s : low (Json.dumps_str s).
Proof.
  unfold Json.dumps_str. apply low_app; [repeat constructor; done|].
  apply low_app; [|repeat constructor; done].
  induction s as [|c s IH]; [constructor|]. simpl. apply low_app; [apply low_escape_char|done].
Qed.

Lemma low_item key v : low v → low (Json.item key v).
Proof.
  intros. unfold Json.item.
  repeat (apply low_app || apply low_lit || (repeat constructor; done) || done).
Qed.

Lemma low_join parts : Forall low parts → low (Json.join parts).
Proof.
  induction 1 as [|p parts Hp _ IH]; [constructor|].
  destruct parts as [|q parts]; [done|].
  change (Json.join (p :: q :: parts)) with (p ++ lit ", " ++ Json.join (q :: parts)).
  repeat apply low_app; [done|apply low_lit|done].
Qed.

Lemma low_dumps_dict items : Forall low items → low (Json.dumps_dict items).
Proof.
  intros. unfold Json.dumps_dict.
  repeat (apply low_app || apply low_lit || apply low_join || done).
Qed.

Lemma low_dumps_list elems : Forall low elems → low (Json.dumps_list elems).
Proof.
  intros. unfold Json.dumps_list.
  repeat (apply low_app || apply low_lit || apply low_join || done).
Qed.

Lemma low_dumps_bool b : low (Json.dumps_bool b).
Proof. destruct b; apply low_lit. Qed.

Lemma low_items_1 k1 v1 : low v1 → Forall low [Json.item k1 v1].
Proof. intros. apply Forall_cons_2; [by apply low_item|apply Forall_nil_2]. Qed.

Lemma low_items_2 k1 v1 k2 v2 :
  low v1 → low v2 → Forall low [Json.item k1 v1; Json.item k2 v2].
Proof. intros. apply Forall_cons_2; [by apply low_item|by apply low_items_1]. Qed.

Lemma low_items_3 k1 v1 k2 v2 k3 v3 :
  low v1 → low v2 → low v3 →
  Forall low [Json.item k1 v1; Json.item k2 v2; Json.item k3 v3].
Proof. intros. apply Forall_cons_2; [by apply low_item|by apply low_items_2]. Qed.

Lemma low_dumps_payload (pl : Payload) : low (Transaction.dumps_payload pl).
Proof.
  destruct pl; simpl; apply low_dumps_dict;
    [apply low_items_3|apply low_items_2|apply low_items_2|apply low_items_1];
    apply low_dumps_str || apply low_dumps_bool.
Qed.

Lemma low_dumps_tx tx : low (Transaction.dumps tx).
Proof.
  unfold Transaction.dumps. apply low_dumps_dict, low_items_3.
  - apply low_dumps_payload.
  - unfold Json.dumps_float. cbv zeta. repeat case_match; apply low_lit.
  - apply low_dumps_str.
Qed.

Lemma low_tx_str b : low (Block.tx_str b).
Proof.
  unfold Block.tx_str. apply low_dumps_list, Forall_fmap, Forall_forall.
  intros tx _. apply low_dumps_tx.
Qed.

End Strings.

(** ** Hashing and mining *)

Section MiningFacts.

Implicit Types b self : Block.t.

Lemma set_nonce_nonce b : Block.set_nonce (Block.nonce b) b = b.
Proof. by destruct b. Qed.

Lemma attempt_nonce b : Mining.attempt b (Block.nonce b) = Block.calculate_hash b.
Proof. unfold Mining.attempt. by rewrite set_nonce_nonce. Qed.

(** [calculate_hash] raises exactly when [previous_hash] holds a character
    UTF-8 cannot encode: everything else in the block string is ASCII text
    the program wrote itself. *)
Lemma calculate_hash_is_Some b :
  is_Some (Block.calculate_hash b) ↔ is_Some (encode (Block.previous_hash b)).
Proof.
  unfold Block.calculate_hash, Block.block_string.
  rewrite fmap_is_Some, !encode_app_is_Some. split.
  - by intros (_ & _ & _ & H & _).
  - intros H. repeat split; try done; apply encode_low;
      apply low_of_int || apply low_lit || apply low_tx_str.
Qed.

Lemma attempt_is_Some b n m :
  is_Some (Mining.attempt b n) → is_Some (Mining.attempt b m).
Proof. unfold Mining.attempt. rewrite !calculate_hash_is_Some. done. Qed.

Lemma meets_true b n :
  Mining.meets b n = true ↔
  ∃ h, Mining.attempt b n = Some h ∧ startswith h (Mining.target b) = true.
Proof.
  unfold Mining.meets. destruct (Mining.attempt b n) as [h|].
  - split; [eauto|]. by intros (? & [= <-] & ?).
  - split; [done|]. by intros (? & ? & ?).
Qed.

Lemma first_hit_unique b k k' :
  Mining.first_hit b k → Mining.first_hit b k' → k = k'.
Proof.
  intros [Hk Hlt] [Hk' Hlt'].
  destruct (lt_eq_lt_dec k k') as [[Hc|Hc]|Hc]; [|done|].
  - rewrite (Hlt' k Hc) in Hk. done.
  - rewrite (Hlt k' Hc) in Hk'. done.
Qed.

(** A linear scan either finds nothing below [k] or has a first hit. *)
Lemma least_true (f : nat → bool) (k : nat) :
  (∀ j, (j < k)%nat → f j = false)
  ∨ ∃ k', (k' < k)%nat ∧ f k' = true ∧ ∀ j, (j < k')%nat → f j = false.
Proof.
  induction k as [|k [IH|(k' & ? & ? & ?)]].
  - left. intros j Hj. lia.
  - destruct (f k) eqn:E.
    + right. exists k. repeat split; [lia|done|done].
    + left. intros j Hj. destruct (decide (j = k)) as [->|]; [done|]. apply IH. lia.
  - right. exists k'. repeat split; [lia|done|done].
Qed.

(** A nonce that meets the target bounds the least one. *)
Lemma first_hit_exists b k :
  Mining.meets b (Block.nonce b + Z.of_nat k) = true →
  ∃ k', (k' ≤ k)%nat ∧ Mining.first_hit b k'.
Proof.
  intros Hk.
  destruct (least_true (λ j, Mining.meets b (Block.nonce b + Z.of_nat j)) k)
    as [Hlt|(k' & ? & ? & ?)].
  - exists k. by repeat split.
  - exists k'. repeat split; [lia|done|done].
Qed.

(** The loop, started at nonce [n] of [b] with that nonce's hash in hand. *)
Lemma mine_loop_sound fuel : ∀ b n h h' self',
  Mining.attempt b n = Some h →
  Block.mine_loop fuel (Mining.target b) (Block.set_nonce n b) h = Returns (h', self') →
  ∃ k : nat, (k ≤ fuel)%nat
    ∧ self' = Block.set_nonce (n + Z.of_nat k) b
    ∧ Mining.attempt b (n + Z.of_nat k) = Some h'
    ∧ startswith h' (Mining.target b) = true
    ∧ ∀ j : nat, (j < k)%nat → Mining.meets b (n + Z.of_nat j) = false.
Proof.
  induction fuel as [|fuel IH]; intros b n h h' self' Hh; simpl;
    destruct (startswith h (Mining.target b)) eqn:Hs.
  1,3: intros [= <- <-]; exists 0%nat; rewrite Z.add_0_r;
       repeat split; try done; lia.
  - done.
  - change (Block.calculate_hash _) with (Mining.attempt b (n + 1)).
    destruct (Mining.attempt b (n + 1)) as [h1|] eqn:H1; [|done].
    change (Block.set_nonce _ (Block.set_nonce n b)) with (Block.set_nonce (n + 1) b).
    intros Hrun. destruct (IH b (n + 1) h1 h' self' H1 Hrun)
      as (k & Hk & -> & Ha & Hs' & Hlt).
    exists (S k). replace (n + Z.of_nat (S k)) with (n + 1 + Z.of_nat k) by lia.
    repeat split; try done; [lia|]. intros [|j] Hj.
    + rewrite Z.add_0_r. unfold Mining.meets. by rewrite Hh.
    + replace (n + Z.of_nat (S j)) with (n + 1 + Z.of_nat j) by lia.
      apply Hlt. lia.
Qed.

Lemma mine_loop_complete k : ∀ fuel b n h,
  (k ≤ fuel)%nat →
  Mining.attempt b n = Some h →
  Mining.meets b (n + Z.of_nat k) = true →
  (∀ j : nat, (j < k)%nat → Mining.meets b (n + Z.of_nat j) = false) →
  ∃ h', Mining.attempt b (n + Z.of_nat k) = Some h'
    ∧ Block.mine_loop fuel (Mining.target b) (Block.set_nonce n b) h
      = Returns (h', Block.set_nonce (n + Z.of_nat k) b).
Proof.
  induction k as [|k IH]; intros fuel b n h Hfuel Hh Hk Hlt.
  - rewrite Z.add_0_r in *. exists h. split; [done|].
    unfold Mining.meets in Hk. rewrite Hh in Hk.
    destruct fuel; simpl; by rewrite Hk.
  - destruct fuel as [|fuel]; [lia|].
    pose proof (Hlt 0%nat ltac:(lia)) as H0. rewrite Z.add_0_r in H0.
    unfold Mining.meets in H0. rewrite Hh in H0. simpl. rewrite H0.
    change (Block.calculate_hash _) with (Mining.attempt b (n + 1)).
    change (Block.set_nonce _ (Block.set_nonce n b)) with (Block.set_nonce (n + 1) b).
    destruct (attempt_is_Some b n (n + 1)) as [h1 H1]; [by rewrite Hh|].
    rewrite H1. replace (n + Z.of_nat (S k)) with (n + 1 + Z.of_nat k) in * by lia.
    apply IH; [lia|done|done|]. intros j Hj.
    replace (n + 1 + Z.of_nat j) with (n + Z.of_nat (S j)) by lia. apply Hlt. lia.
Qed.

(** [mine_block] returns exactly the first nonce that meets the target, when
    the fuel reaches it. *)
Lemma mine_block_returns fuel self h self' :
  Block.mine_block fuel self = Returns (h, self') ↔
  ∃ k : nat, (k ≤ fuel)%nat ∧ Mining.first_hit self k
    ∧ self' = Block.set_nonce (Block.nonce self + Z.of_nat k) self
    ∧ Mining.attempt self (Block.nonce self + Z.of_nat k) = Some h.
Proof.
  unfold Block.mine_block. fold (Mining.target self). rewrite <-attempt_nonce. split.
  - destruct (Mining.attempt self (Block.nonce self)) as [h0|] eqn:H0; [|done].
    intros Hrun.
    pose proof (mine_loop_sound fuel self (Block.nonce self) h0 h self' H0) as Hs.
    rewrite set_nonce_nonce in Hs.
    destruct (Hs Hrun) as (k & Hk & -> & Ha & Hs' & Hlt).
    exists k. split; [done|]. split; [|done]. split; [|done]. apply meets_true. eauto.
  - intros (k & Hk & [Hm Hlt] & -> & Ha).
    destruct (attempt_is_Some self _ (Block.nonce self) (mk_is_Some _ _ Ha)) as [h0 H0].
    rewrite H0.
    destruct (mine_loop_complete k fuel self _ h0 Hk H0 Hm Hlt) as (h' & Ha' & Hrun).
    rewrite set_nonce_nonce in Hrun. rewrite Hrun. congruence.
Qed.

(** The constructor: the block returned, field by field. *)
Lemma init_returns fuel index txs prev d now b :
  Block.init fuel index txs prev d now = Returns b ↔
  ∃ (k : nat) (h : str), (k ≤ fuel)%nat
    ∧ Mining.first_hit (Mining.candidate index txs prev d now) k
    ∧ Mining.attempt (Mining.candidate index txs prev d now) (Z.of_nat k) = Some h
    ∧ b = Block.Make index now txs prev (Z.of_nat k) d h.
Proof.
  unfold Block.init. fold (Mining.candidate index txs prev d now).
  set (c := Mining.candidate index txs prev d now).
  assert (Hn : ∀ k : nat, Block.nonce c + Z.of_nat k = Z.of_nat k) by done.
  split.
  - destruct (Block.mine_block fuel c) as [[h self']| |] eqn:E; try done.
    simpl. intros [= Hb]. subst b.
    apply mine_block_returns in E. destruct E as (k & Hk & Hf & -> & Ha).
    rewrite Hn in *. exists k, h. by do 3 (split; [done|]).
  - intros (k & h & Hk & Hf & Ha & ->).
    assert (Block.mine_block fuel c = Returns (h, Block.set_nonce (Z.of_nat k) c)) as ->; [|done].
    apply mine_block_returns. exists k. rewrite Hn. by do 3 (split; [done|]).
Qed.

End MiningFacts.

(** What the constructor guarantees of the block it returns. *)
Lemma init_sealed fuel index txs prev d now b :
  Block.init fuel index txs prev d now = Returns b →
  Block.calculate_hash b = Some (Block.hash b)
  ∧ startswith (Block.hash b) (times 48%N d) = true
  ∧ Block.index b = index ∧ Block.timestamp b = now
  ∧ Block.transactions b = txs ∧ Block.previous_hash b = prev
  ∧ Block.difficulty b = d.
Proof.
  intros (k & h & Hk & [Hm _] & Ha & ->)%init_returns.
  split; [exact Ha|]. split; [|done].
  apply meets_true in Hm as (h' & Ha' & Hs).
  change (Block.nonce _ + Z.of_nat k) with (Z.of_nat k) in Ha'.
  rewrite Ha in Ha'. by injection Ha' as ->.
Qed.

(** If any nonce from 0 up meets the target, the constructor returns once
    the fuel reaches that nonce. *)
Lemma init_terminates fuel index txs prev d now (k : nat) :
  Mining.meets (Mining.candidate index txs prev d now) (Z.of_nat k) = true →
  (k ≤ fuel)%nat →
  ∃ b, Block.init fuel index txs prev d now = Returns b.
Proof.
  intros Hm Hk.
  destruct (first_hit_exists (Mining.candidate index txs prev d now) k Hm)
    as (k' & Hk' & Hf).
  pose proof Hf as [(h & Ha & _)%meets_true _].
  eexists. apply init_returns. exists k', h. split; [lia|]. by split.
Qed.

(** C1: a block the constructor returns stores, as its hash, the SHA-256
    hex digest of the UTF-8 bytes of its block string (index, timestamp,
    transactions, previous hash, nonce and difficulty), which is what
    [calculate_hash] recomputes, and that hash begins with [difficulty]
    characters ['0']. *)
Theorem C1_mined_block_sealed fuel index txs prev d now b :
  Block.init fuel index txs prev d now = Returns b →
  (∃ bytes, encode (Block.block_string b) = Some bytes
            ∧ Block.hash b = SHA256.hexdigest bytes)
  ∧ Block.calculate_hash b = Some (Block.hash b)
  ∧ take (Z.to_nat (Block.difficulty b)) (Block.hash b)
    = replicate (Z.to_nat (Block.difficulty b)) 48%N.
Proof.
  intros (Hh & Hs & _ & _ & _ & _ & Hd)%init_sealed. split; [|split; [done|]].
  - unfold Block.calculate_hash in Hh.
    destruct (encode (Block.block_string b)) as [bytes|]; [|done].
    exists bytes. split; [done|]. by injection Hh.
  - rewrite Hd. apply startswith_take in Hs. by rewrite length_times in Hs.
Qed.

(** C8: mining is a linear search from nonce 0.  Every attempt hashes the
    candidate built from the arguments and the one clock reading [now]; the
    block returned keeps those fields, carries the least nonce whose hash
    meets the target, and is the same whatever fuel the search was given;
    and the search returns as soon as the fuel reaches a nonce that meets
    the target. *)
Theorem C8_mining_linear_search index txs prev d now :
  (∀ fuel b, Block.init fuel index txs prev d now = Returns b →
     Block.index b = index ∧ Block.timestamp b = now
     ∧ Block.transactions b = txs ∧ Block.previous_hash b = prev
     ∧ Block.difficulty b = d
     ∧ 0 ≤ Block.nonce b ≤ Z.of_nat fuel
     ∧ Mining.attempt (Mining.candidate index txs prev d now) (Block.nonce b)
       = Some (Block.hash b)
     ∧ Mining.meets (Mining.candidate index txs prev d now) (Block.nonce b) = true
     ∧ (∀ n, 0 ≤ n < Block.nonce b →
          Mining.meets (Mining.candidate index txs prev d now) n = false)
     ∧ (∀ fuel' b', Block.init fuel' index txs prev d now = Returns b' → b' = b)
     ∧ (∀ fuel', Block.nonce b ≤ Z.of_nat fuel' →
          Block.init fuel' index txs prev d now = Returns b))
  ∧ (∀ (k fuel : nat),
       Mining.meets (Mining.candidate index txs prev d now) (Z.of_nat k) = true →
       (k ≤ fuel)%nat →
       ∃ b, Block.init fuel index txs prev d now = Returns b).
Proof.
  split; [|intros k fuel; apply init_terminates].
  intros fuel b (k & h & Hk & Hf & Ha & ->)%init_returns. simpl.
  do 5 (split; [done|]). split; [lia|]. split; [done|].
  pose proof Hf as [Hm Hlt]. split; [exact Hm|]. split; [|split].
  - intros n Hn. replace n with (0 + Z.of_nat (Z.to_nat n)) by lia. apply Hlt. lia.
  - intros fuel' b' (k' & h' & Hk' & Hf' & Ha' & ->)%init_returns.
    pose proof (first_hit_unique _ _ _ Hf Hf') as <-. congruence.
  - intros fuel' Hfuel'. apply init_returns. exists k, h.
    split; [lia|]. by split.
Qed.

(** ** The chain the ledger builds *)

Section ChainFacts.

Implicit Types L : Blockchain.t.

(** [_add_block] returns exactly when the constructor does, and appends the
    block it built on the hash of the latest one. *)
Lemma add_block_returns fuel L txs now b L' :
  Blockchain._add_block fuel L txs now = Returns (b, L') ↔
  ∃ latest, last (Blockchain.chain L) = Some latest
    ∧ Block.init fuel (Z.of_nat (length (Blockchain.chain L))) txs
        (Block.hash latest) (Blockchain.difficulty L) now = Returns b
    ∧ L' = Blockchain.set_chain (Blockchain.chain L ++ [b]) L.
Proof.
  unfold Blockchain._add_block, Blockchain.get_latest_block.
  destruct (last (Blockchain.chain L)) as [latest|]; simpl.
  - split.
    + destruct (Block.init _ _ _ _ _ _) as [b0| |] eqn:E; simpl; try done.
      intros [= <- <-]. by exists latest.
    + intros (l0 & [= <-] & Hi & ->). by rewrite Hi.
  - split; [done|]. by intros (? & ? & _).
Qed.

Lemma chain_ok_ext L1 L2 :
  Blockchain.chain L1 = Blockchain.chain L2 →
  Blockchain.difficulty L1 = Blockchain.difficulty L2 →
  chain_ok L1 → chain_ok L2.
Proof. intros Hc Hd [? ? ? ?]. split; rewrite <-?Hc, <-?Hd; done. Qed.

Lemma chain_ok_add_block fuel L txs now b L' :
  chain_ok L →
  Blockchain._add_block fuel L txs now = Returns (b, L') →
  chain_ok L'.
Proof.
  intros [Hne Hh Hp Hl] (latest & Hlast & Hinit & ->)%add_block_returns.
  apply init_sealed in Hinit as (Hbh & Hbs & _ & _ & _ & Hprev & _).
  rewrite last_lookup in Hlast.
  split; simpl.
  - by destruct (Blockchain.chain L).
  - intros i x [Hx|[_ Hx]]%lookup_app_Some; [by eapply Hh|].
    apply list_lookup_singleton_Some in Hx as [_ <-]. done.
  - intros i x [Hx|[_ Hx]]%lookup_app_Some; [by eapply Hp|].
    apply list_lookup_singleton_Some in Hx as [_ <-]. done.
  - intros i x p [Hx|[Hi Hx]]%lookup_app_Some Hpi.
    + apply lookup_lt_Some in Hx as Hlt.
      rewrite lookup_app_l in Hpi by lia. by eapply Hl.
    + apply list_lookup_singleton_Some in Hx as [Hi' <-].
      assert (i = pred (length (Blockchain.chain L))) as -> by lia.
      rewrite lookup_app_l in Hpi
        by (destruct (Blockchain.chain L); [done|simpl; lia]).
      rewrite Hlast in Hpi. injection Hpi as <-. done.
Qed.

Lemma chain_ok_init fuel d t_tx t_block L :
  Blockchain.init fuel d t_tx t_block = Returns L → chain_ok L.
Proof.
  unfold Blockchain.init, Blockchain._create_genesis_block.
  destruct (Block.init _ _ _ _ _ _) as [g| |] eqn:E; [|done..].
  simpl. intros [= <-]. apply init_sealed in E as (Hh & Hs & _).
  split; simpl.
  - done.
  - by intros i b [_ <-]%list_lookup_singleton_Some.
  - by intros i b [_ <-]%list_lookup_singleton_Some.
  - intros i b p Hb _. by destruct i.
Qed.

(** The three operations, each as the cases of its source. *)
Lemma add_voter_cases fuel L voter_id name t_tx t_block r L' :
  Blockchain.add_voter fuel L voter_id name t_tx t_block = Returns (r, L') →
  (returned r = false ∧ L' = L)
  ∨ (r = Success
     ∧ strip voter_id ≠ [] ∧ strip name ≠ []
     ∧ Blockchain.voters L !! strip voter_id = None
     ∧ ∃ b, Blockchain._add_block fuel
              (Blockchain.set_voters
                 (<[strip voter_id := Voter.new (strip voter_id) (strip name)]>
                    (Blockchain.voters L)) L)
              [Transaction.add_voter (Voter.new (strip voter_id) (strip name)) t_tx]
              t_block = Returns (b, L')).
Proof.
  unfold Blockchain.add_voter.
  destruct (strip voter_id) as [|c vid] eqn:Ev; simpl; [intros [= <- <-]; by left|].
  destruct (strip name) as [|c' nm] eqn:En; simpl; [intros [= <- <-]; by left|].
  case_decide as Hdup; [intros [= <- <-]; by left|].
  destruct (Blockchain._add_block _ _ _ _) as [[b L1]| |] eqn:E; [|done..].
  simpl. intros [= <- <-]. right. repeat split; try done.
  - by apply eq_None_not_Some.
  - by exists b.
Qed.

Lemma add_candidate_cases fuel L candidate_id name t_tx t_block r L' :
  Blockchain.add_candidate fuel L candidate_id name t_tx t_block = Returns (r, L') →
  (returned r = false ∧ L' = L)
  ∨ (r = Success
     ∧ strip candidate_id ≠ [] ∧ strip name ≠ []
     ∧ Blockchain.candidates L !! strip candidate_id = None
     ∧ ∃ b, Blockchain._add_block fuel
              (Blockchain.set_candidates
                 (<[strip candidate_id := Candidate.Make (strip candidate_id) (strip name)]>
                    (Blockchain.candidates L)) L)
              [Transaction.add_candidate
                 (Candidate.Make (strip candidate_id) (strip name)) t_tx]
              t_block = Returns (b, L')).
Proof.
  unfold Blockchain.add_candidate.
  destruct (strip candidate_id) as [|c cid] eqn:Ev; simpl; [intros [= <- <-]; by left|].
  destruct (strip name) as [|c' nm] eqn:En; simpl; [intros [= <- <-]; by left|].
  case_decide as Hdup; [intros [= <- <-]; by left|].
  destruct (Blockchain._add_block _ _ _ _) as [[b L1]| |] eqn:E; [|done..].
  simpl. intros [= <- <-]. right. repeat split; try done.
  - by apply eq_None_not_Some.
  - by exists b.
Qed.

Lemma cast_vote_cases fuel L voter_id candidate_id t_tx t_block r L' :
  Blockchain.cast_vote fuel L voter_id candidate_id t_tx t_block = Returns (r, L') →
  (returned r = false ∧ L' = L)
  ∨ (r = Success
     ∧ ∃ voter, Blockchain.voters L !! strip voter_id = Some voter
       ∧ Voter.has_voted voter = false
       ∧ is_Some (Blockchain.candidates L !! strip candidate_id)
       ∧ ∃ b, Blockchain._add_block fuel
                (Blockchain.set_voters
                   (<[strip voter_id := Voter.set_has_voted true voter]>
                      (Blockchain.voters L)) L)
                [Transaction.cast_vote (strip voter_id) (strip candidate_id) t_tx]
                t_block = Returns (b, L')).
Proof.
  unfold Blockchain.cast_vote.
  destruct (Blockchain.voters L !! strip voter_id) as [voter|] eqn:Ev;
    [|intros [= <- <-]; by left].
  case_decide as Hc; [intros [= <- <-]; by left|].
  apply not_eq_None_Some in Hc.
  destruct (Voter.has_voted voter) eqn:Hv; [intros [= <- <-]; by left|].
  destruct (Blockchain._add_block _ _ _ _) as [[b L1]| |] eqn:E; [|done..].
  simpl. intros [= <- <-]. right. split; [done|]. exists voter.
  repeat split; try done. by exists b.
Qed.

(** Every ledger the operations produce carries a well-formed chain. *)
Lemma reachable_chain_ok L : reachable L → chain_ok L.
Proof.
  induction 1 as [fuel d t1 t2 L Hinit
                 |fuel L id name t1 t2 r L' _ IH Hop
                 |fuel L id name t1 t2 r L' _ IH Hop
                 |fuel L id cid t1 t2 r L' _ IH Hop].
  - by eapply chain_ok_init.
  - apply add_voter_cases in Hop as [[_ ->]|(_ & _ & _ & _ & b & Hb)]; [done|].
    eapply chain_ok_add_block; [|exact Hb]. by apply (chain_ok_ext L).
  - apply add_candidate_cases in Hop as [[_ ->]|(_ & _ & _ & _ & b & Hb)]; [done|].
    eapply chain_ok_add_block; [|exact Hb]. by apply (chain_ok_ext L).
  - apply cast_vote_cases in Hop as [[_ ->]|(_ & v & _ & _ & _ & b & Hb)]; [done|].
    eapply chain_ok_add_block; [|exact Hb]. by apply (chain_ok_ext L).
Qed.

(** One iteration passes exactly on the three conditions of the source. *)
Lemma check_block_None prefix i cur prev :
  Blockchain.check_block prefix i cur prev = None ↔
  Block.calculate_hash cur = Some (Block.hash cur)
  ∧ startswith (Block.hash cur) prefix = true
  ∧ Block.previous_hash cur = Block.hash prev.
Proof.
  unfold Blockchain.check_block.
  destruct (Block.calculate_hash cur) as [h|]; [|split; [done|by intros [? _]]].
  case_bool_decide as Hh; simpl.
  - destruct (startswith (Block.hash cur) prefix); simpl.
    + case_bool_decide as Hl; simpl.
      * split; [|done]. intros _. by rewrite Hh.
      * split; [done|]. by intros (_ & _ & ?).
    + split; [done|]. by intros (_ & ? & _).
  - split; [done|]. intros ([= ?] & _). done.
Qed.

(** The loop returns [Valid] when every iteration passes. *)
Lemma validate_loop_valid prefix chain n : ∀ s,
  (∀ j, (s ≤ j < s + n)%nat → ∃ cur prev,
      chain !! j = Some cur ∧ chain !! (j - 1)%nat = Some prev
      ∧ Blockchain.check_block prefix j cur prev = None) →
  Blockchain.validate_loop prefix chain s n = Valid.
Proof.
  induction n as [|n IH]; intros s Hall; simpl; [done|].
  destruct (Hall s ltac:(lia)) as (cur & prev & -> & -> & ->).
  apply IH. intros j Hj. apply Hall. lia.
Qed.


Lemma chain_ok_check L j cur prev :
  chain_ok L → (1 ≤ j)%nat →
  Blockchain.chain L !! j = Some cur →
  Blockchain.chain L !! (j - 1)%nat = Some prev →
  Blockchain.check_block (times 48%N (Blockchain.difficulty L)) j cur prev = None.
Proof.
  intros [_ Hh Hp Hl] Hj Hcur Hprev. apply check_block_None.
  split; [by eapply Hh|]. split; [by eapply Hp|].
  destruct j as [|j]; [lia|]. eapply Hl; [done|].
  by replace (S j - 1)%nat with j in Hprev by lia.
Qed.

End ChainFacts.

(** C2: on every ledger reached from a fresh one by [add_voter],
    [add_candidate] and [cast_vote] calls, [validate_chain] finds nothing
    and returns [True]. *)
Theorem C2_reachable_chain_validates L :
  reachable L →
  Blockchain.validate_chain L = Valid
  ∧ verdict_bool (Blockchain.validate_chain L) = Some true.
Proof.
  intros Hok%reachable_chain_ok.
  assert (Blockchain.validate_chain L = Valid) as ->; [|done].
  apply validate_loop_valid. intros j Hj.
  destruct (lookup_lt_is_Some_2 (Blockchain.chain L) j ltac:(lia)) as [cur Hcur].
  destruct (lookup_lt_is_Some_2 (Blockchain.chain L) (j - 1) ltac:(lia)) as [prev Hprev].
  exists cur, prev. repeat split; try done. eapply chain_ok_check; try done. lia.
Qed.

(** ** The three operations *)

Section Operations.

Implicit Types L : Blockchain.t.

Lemma is_empty_true (s : str) : Blockchain.is_empty s = true ↔ s = [].
Proof. by destruct s. Qed.

Lemma is_empty_false (s : str) : Blockchain.is_empty s = false ↔ s ≠ [].
Proof. by destruct s. Qed.

(** Past its checks, an operation is its table update followed by
    [_add_block]. *)
Lemma add_voter_proceeds fuel L voter_id name t_tx t_block :
  strip voter_id ≠ [] → strip name ≠ [] →
  Blockchain.voters L !! strip voter_id = None →
  Blockchain.add_voter fuel L voter_id name t_tx t_block
  = '(_, self) ← Blockchain._add_block fuel
        (Blockchain.set_voters
           (<[strip voter_id := Voter.new (strip voter_id) (strip name)]>
              (Blockchain.voters L)) L)
        [Transaction.add_voter (Voter.new (strip voter_id) (strip name)) t_tx] t_block;
    Returns (Success, self).
Proof.
  intros Hv%is_empty_false Hn%is_empty_false Hnew.
  unfold Blockchain.add_voter. rewrite Hv, Hn. simpl.
  by rewrite decide_False by (rewrite Hnew; by inversion 1).
Qed.

Lemma add_candidate_proceeds fuel L candidate_id name t_tx t_block :
  strip candidate_id ≠ [] → strip name ≠ [] →
  Blockchain.candidates L !! strip candidate_id = None →
  Blockchain.add_candidate fuel L candidate_id name t_tx t_block
  = '(_, self) ← Blockchain._add_block fuel
        (Blockchain.set_candidates
           (<[strip candidate_id := Candidate.Make (strip candidate_id) (strip name)]>
              (Blockchain.candidates L)) L)
        [Transaction.add_candidate
           (Candidate.Make (strip candidate_id) (strip name)) t_tx] t_block;
    Returns (Success, self).
Proof.
  intros Hv%is_empty_false Hn%is_empty_false Hnew.
  unfold Blockchain.add_candidate. rewrite Hv, Hn. simpl.
  by rewrite decide_False by (rewrite Hnew; by inversion 1).
Qed.

Lemma cast_vote_proceeds fuel L voter_id candidate_id t_tx t_block voter :
  Blockchain.voters L !! strip voter_id = Some voter →
  is_Some (Blockchain.candidates L !! strip candidate_id) →
  Voter.has_voted voter = false →
  Blockchain.cast_vote fuel L voter_id candidate_id t_tx t_block
  = '(_, self) ← Blockchain._add_block fuel
        (Blockchain.set_voters
           (<[strip voter_id := Voter.set_has_voted true voter]>
              (Blockchain.voters L)) L)
        [Transaction.cast_vote (strip voter_id) (strip candidate_id) t_tx] t_block;
    Returns (Success, self).
Proof.
  intros Hv Hc%not_eq_None_Some Hhv. unfold Blockchain.cast_vote.
  by rewrite Hv, decide_False, Hhv by done.
Qed.

(** A return of [_add_block] followed by a success. *)
Lemma bind_add_block_returns fuel L txs now r L' :
  ('(_, self) ← Blockchain._add_block fuel L txs now; Returns (Success, self))
  = Returns (r, L') →
  r = Success ∧ ∃ b, Blockchain._add_block fuel L txs now = Returns (b, L').
Proof.
  destruct (Blockchain._add_block fuel L txs now) as [[b L1]| |]; [|done..].
  simpl. intros [= <- <-]. eauto.
Qed.

(** With the block built, an operation past its checks succeeds with the
    ledger written out. *)
Lemma add_voter_success fuel L voter_id name t_tx t_block latest b :
  strip voter_id ≠ [] → strip name ≠ [] →
  Blockchain.voters L !! strip voter_id = None →
  last (Blockchain.chain L) = Some latest →
  Block.init fuel (Z.of_nat (length (Blockchain.chain L)))
    [Transaction.add_voter (Voter.new (strip voter_id) (strip name)) t_tx]
    (Block.hash latest) (Blockchain.difficulty L) t_block = Returns b →
  Blockchain.add_voter fuel L voter_id name t_tx t_block
  = Returns (Success,
             Blockchain.Make (Blockchain.difficulty L) (Blockchain.chain L ++ [b])
               (<[strip voter_id := Voter.new (strip voter_id) (strip name)]>
                  (Blockchain.voters L))
               (Blockchain.candidates L)).
Proof.
  intros Hv Hn Hnew Hlast Hinit. rewrite add_voter_proceeds by done.
  unfold Blockchain._add_block, Blockchain.get_latest_block. simpl.
  rewrite Hlast. simpl. by rewrite Hinit.
Qed.

Lemma add_candidate_success fuel L candidate_id name t_tx t_block latest b :
  strip candidate_id ≠ [] → strip name ≠ [] →
  Blockchain.candidates L !! strip candidate_id = None →
  last (Blockchain.chain L) = Some latest →
  Block.init fuel (Z.of_nat (length (Blockchain.chain L)))
    [Transaction.add_candidate (Candidate.Make (strip candidate_id) (strip name)) t_tx]
    (Block.hash latest) (Blockchain.difficulty L) t_block = Returns b →
  Blockchain.add_candidate fuel L candidate_id name t_tx t_block
  = Returns (Success,
             Blockchain.Make (Blockchain.difficulty L) (Blockchain.chain L ++ [b])
               (Blockchain.voters L)
               (<[strip candidate_id := Candidate.Make (strip candidate_id) (strip name)]>
                  (Blockchain.candidates L))).
Proof.
  intros Hv Hn Hnew Hlast Hinit. rewrite add_candidate_proceeds by done.
  unfold Blockchain._add_block, Blockchain.get_latest_block. simpl.
  rewrite Hlast. simpl. by rewrite Hinit.
Qed.

Lemma cast_vote_success fuel L voter_id candidate_id t_tx t_block voter latest b :
  Blockchain.voters L !! strip voter_id = Some voter →
  is_Some (Blockchain.candidates L !! strip candidate_id) →
  Voter.has_voted voter = false →
  last (Blockchain.chain L) = Some latest →
  Block.init fuel (Z.of_nat (length (Blockchain.chain L)))
    [Transaction.cast_vote (strip voter_id) (strip candidate_id) t_tx]
    (Block.hash latest) (Blockchain.difficulty L) t_block = Returns b →
  Blockchain.cast_vote fuel L voter_id candidate_id t_tx t_block
  = Returns (Success,
             Blockchain.Make (Blockchain.difficulty L) (Blockchain.chain L ++ [b])
               (<[strip voter_id := Voter.set_has_voted true voter]>
                  (Blockchain.voters L))
               (Blockchain.candidates L)).
Proof.
  intros Hv Hc Hhv Hlast Hinit. rewrite (cast_vote_proceeds _ _ _ _ _ _ voter) by done.
  unfold Blockchain._add_block, Blockchain.get_latest_block. simpl.
  rewrite Hlast. simpl. by rewrite Hinit.
Qed.

(** The ledger [_add_block] returns, written out. *)
Lemma add_block_ledger fuel L txs now b L' :
  Blockchain._add_block fuel L txs now = Returns (b, L') →
  L' = Blockchain.Make (Blockchain.difficulty L) (Blockchain.chain L ++ [b])
         (Blockchain.voters L) (Blockchain.candidates L)
  ∧ Block.transactions b = txs
  ∧ ∃ latest, last (Blockchain.chain L) = Some latest
      ∧ Block.init fuel (Z.of_nat (length (Blockchain.chain L))) txs
          (Block.hash latest) (Blockchain.difficulty L) now = Returns b.
Proof.
  intros (latest & Hlast & Hinit & ->)%add_block_returns.
  split; [done|]. split; [|by exists latest].
  by apply init_sealed in Hinit as (_ & _ & _ & _ & ? & _).
Qed.

End Operations.

(** C6: [add_voter] strips both arguments.  An empty id or name gives
    [EmptyField]; an id already in the voters table gives
    [DuplicateVoterId]; both leave the ledger as it was.  Otherwise a return
    is a success whose ledger has the voter, under the stripped id and with
    the stripped name and [has_voted = False], entered in the voters table
    and exactly one block appended, holding exactly the one [ADD_VOTER]
    transaction of that voter; and the call does return so whenever the
    constructor of that block does. *)
Theorem C6_add_voter fuel L voter_id name t_tx t_block :
  (strip voter_id = [] ∨ strip name = [] →
     Blockchain.add_voter fuel L voter_id name t_tx t_block
     = Returns (Failure EmptyField, L))
  ∧ (strip voter_id ≠ [] → strip name ≠ [] →
     is_Some (Blockchain.voters L !! strip voter_id) →
     Blockchain.add_voter fuel L voter_id name t_tx t_block
     = Returns (Failure DuplicateVoterId, L))
  ∧ (strip voter_id ≠ [] → strip name ≠ [] →
     Blockchain.voters L !! strip voter_id = None →
     (∀ r L', Blockchain.add_voter fuel L voter_id name t_tx t_block = Returns (r, L') →
        r = Success
        ∧ ∃ b, L' = Blockchain.Make (Blockchain.difficulty L)
                      (Blockchain.chain L ++ [b])
                      (<[strip voter_id := Voter.Make (strip voter_id) (strip name) false]>
                         (Blockchain.voters L))
                      (Blockchain.candidates L)
             ∧ Block.transactions b
               = [Transaction.Make (lit "ADD_VOTER")
                    (VoterDict (strip voter_id) (strip name) false) t_tx])
     ∧ (∀ latest b, last (Blockchain.chain L) = Some latest →
          Block.init fuel (Z.of_nat (length (Blockchain.chain L)))
            [Transaction.Make (lit "ADD_VOTER")
               (VoterDict (strip voter_id) (strip name) false) t_tx]
            (Block.hash latest) (Blockchain.difficulty L) t_block = Returns b →
          Blockchain.add_voter fuel L voter_id name t_tx t_block
          = Returns (Success,
                     Blockchain.Make (Blockchain.difficulty L)
                       (Blockchain.chain L ++ [b])
                       (<[strip voter_id := Voter.Make (strip voter_id) (strip name) false]>
                          (Blockchain.voters L))
                       (Blockchain.candidates L)))).
Proof.
  split; [|split].
  - unfold Blockchain.add_voter. intros [->| ->]; [done|].
    by destruct (strip voter_id).
  - intros Hv%is_empty_false Hn%is_empty_false Hdup.
    unfold Blockchain.add_voter. rewrite Hv, Hn. simpl. by rewrite decide_True.
  - intros Hv Hn Hnew. split.
    + intros r L'. rewrite add_voter_proceeds by done.
      intros [-> [b Hb]]%bind_add_block_returns. split; [done|]. exists b.
      by apply add_block_ledger in Hb as (-> & -> & _).
    + intros latest b. by apply add_voter_success.
Qed.

(** C4: [cast_vote] strips both arguments and checks in this order.  A
    voter id not in the voters table gives [UnknownVoter], whatever the
    candidate id is; then a candidate id not in the candidates table gives
    [UnknownCandidate]; then a voter whose [has_voted] is set gives
    [AlreadyVoted]; the three leave the ledger as it was.  Otherwise a
    return is a success whose ledger has [has_voted] of the voter set and
    exactly one block appended, holding exactly the one [CAST_VOTE]
    transaction; and the call does return so whenever the constructor of
    that block does. *)
Theorem C4_cast_vote fuel L voter_id candidate_id t_tx t_block :
  (Blockchain.voters L !! strip voter_id = None →
     Blockchain.cast_vote fuel L voter_id candidate_id t_tx t_block
     = Returns (Failure UnknownVoter, L))
  ∧ (is_Some (Blockchain.voters L !! strip voter_id) →
     Blockchain.candidates L !! strip candidate_id = None →
     Blockchain.cast_vote fuel L voter_id candidate_id t_tx t_block
     = Returns (Failure UnknownCandidate, L))
  ∧ (∀ voter, Blockchain.voters L !! strip voter_id = Some voter →
     is_Some (Blockchain.candidates L !! strip candidate_id) →
     Voter.has_voted voter = true →
     Blockchain.cast_vote fuel L voter_id candidate_id t_tx t_block
     = Returns (Failure AlreadyVoted, L))
  ∧ (∀ voter, Blockchain.voters L !! strip voter_id = Some voter →
     is_Some (Blockchain.candidates L !! strip candidate_id) →
     Voter.has_voted voter = false →
     (∀ r L', Blockchain.cast_vote fuel L voter_id candidate_id t_tx t_block
              = Returns (r, L') →
        r = Success
        ∧ ∃ b, L' = Blockchain.Make (Blockchain.difficulty L)
                      (Blockchain.chain L ++ [b])
                      (<[strip voter_id :=
                           Voter.Make (Voter.voter_id voter) (Voter.name voter) true]>
                         (Blockchain.voters L))
                      (Blockchain.candidates L)
             ∧ Block.transactions b
               = [Transaction.Make (lit "CAST_VOTE")
                    (VoteDict (strip voter_id) (strip candidate_id)) t_tx])
     ∧ (∀ latest b, last (Blockchain.chain L) = Some latest →
          Block.init fuel (Z.of_nat (length (Blockchain.chain L)))
            [Transaction.Make (lit "CAST_VOTE")
               (VoteDict (strip voter_id) (strip candidate_id)) t_tx]
            (Block.hash latest) (Blockchain.difficulty L) t_block = Returns b →
          Blockchain.cast_vote fuel L voter_id candidate_id t_tx t_block
          = Returns (Success,
                     Blockchain.Make (Blockchain.difficulty L)
                       (Blockchain.chain L ++ [b])
                       (<[strip voter_id :=
                            Voter.Make (Voter.voter_id voter) (Voter.name voter) true]>
                          (Blockchain.voters L))
                       (Blockchain.candidates L)))).
Proof.
  split; [|split; [|split]].
  - intros Hv. unfold Blockchain.cast_vote. by rewrite Hv.
  - intros [voter Hv] Hc. unfold Blockchain.cast_vote. rewrite Hv.
    by rewrite decide_True by done.
  - intros voter Hv Hc%not_eq_None_Some Hhv. unfold Blockchain.cast_vote.
    by rewrite Hv, decide_False, Hhv by done.
  - intros voter Hv Hc Hhv. split.
    + intros r L'. rewrite (cast_vote_proceeds _ _ _ _ _ _ voter) by done.
      intros [-> [b Hb]]%bind_add_block_returns. split; [done|]. exists b.
      by apply add_block_ledger in Hb as (-> & -> & _).
    + intros latest b. by apply cast_vote_success.
Qed.

(** C5: each of the three operations is all or nothing.  A call that
    returns [False] returns the ledger it was given, chain and both tables.
    A call that returns [True] has made both of its changes.  The chain is
    the old chain and one block, which holds the one transaction of the
    operation.  The table is the old table with one entry written:
    [Voter(voter_id, name)] with [has_voted] being [False] under an id that
    was free, or [Candidate(candidate_id, name)] under an id that was free,
    or the voter found under the id, whose [has_voted] was [False], with
    the same id and name and [has_voted] being [True].  The other table and
    the difficulty are as they were. *)
Theorem C5_operations_atomic fuel L x y t_tx t_block r L' :
  (Blockchain.add_voter fuel L x y t_tx t_block = Returns (r, L') →
     (returned r = false → L' = L)
     ∧ (returned r = true →
        ∃ b, Blockchain.chain L' = Blockchain.chain L ++ [b]
          ∧ Block.transactions b
            = [Transaction.Make (lit "ADD_VOTER")
                 (VoterDict (strip x) (strip y) false) t_tx]
          ∧ Blockchain.voters L !! strip x = None
          ∧ Blockchain.voters L'
            = <[strip x := Voter.Make (strip x) (strip y) false]> (Blockchain.voters L)
          ∧ Blockchain.candidates L' = Blockchain.candidates L
          ∧ Blockchain.difficulty L' = Blockchain.difficulty L))
  ∧ (Blockchain.add_candidate fuel L x y t_tx t_block = Returns (r, L') →
     (returned r = false → L' = L)
     ∧ (returned r = true →
        ∃ b, Blockchain.chain L' = Blockchain.chain L ++ [b]
          ∧ Block.transactions b
            = [Transaction.Make (lit "ADD_CANDIDATE")
                 (CandidateDict (strip x) (strip y)) t_tx]
          ∧ Blockchain.candidates L !! strip x = None
          ∧ Blockchain.candidates L'
            = <[strip x := Candidate.Make (strip x) (strip y)]> (Blockchain.candidates L)
          ∧ Blockchain.voters L' = Blockchain.voters L
          ∧ Blockchain.difficulty L' = Blockchain.difficulty L))
  ∧ (Blockchain.cast_vote fuel L x y t_tx t_block = Returns (r, L') →
     (returned r = false → L' = L)
     ∧ (returned r = true →
        ∃ b voter, Blockchain.chain L' = Blockchain.chain L ++ [b]
          ∧ Block.transactions b
            = [Transaction.Make (lit "CAST_VOTE")
                 (VoteDict (strip x) (strip y)) t_tx]
          ∧ Blockchain.voters L !! strip x = Some voter
          ∧ Voter.has_voted voter = false
          ∧ Blockchain.voters L'
            = <[strip x := Voter.Make (Voter.voter_id voter) (Voter.name voter) true]>
                (Blockchain.voters L)
          ∧ Blockchain.candidates L' = Blockchain.candidates L
          ∧ Blockchain.difficulty L' = Blockchain.difficulty L)).
Proof.
  split; [|split].
  - intros [[Hr ->]|(-> & _ & _ & Hnew & b & Hb)]%add_voter_cases.
    + split; [done|]. by rewrite Hr.
    + split; [done|]. intros _. exists b.
      by apply add_block_ledger in Hb as (-> & -> & _).
  - intros [[Hr ->]|(-> & _ & _ & Hnew & b & Hb)]%add_candidate_cases.
    + split; [done|]. by rewrite Hr.
    + split; [done|]. intros _. exists b.
      by apply add_block_ledger in Hb as (-> & -> & _).
  - intros [[Hr ->]|(-> & voter & Hv & Hhv & _ & b & Hb)]%cast_vote_cases.
    + split; [done|]. by rewrite Hr.
    + split; [done|]. intros _. exists b, voter.
      by apply add_block_ledger in Hb as (-> & -> & _).
Qed.

(** C10: voter ids and candidate ids are two name spaces.  [add_voter]
    neither changes the candidates table nor reads it (with any other
    candidates table it returns the same result and the same update), and
    [add_candidate] likewise with the voters table; so after a string has
    been registered as a voter id, registering it as a candidate id is
    refused only for an empty name or an id already among the candidates,
    and leaves it in both tables. *)
Theorem C10_separate_namespaces fuel L id name t_tx t_block :
  (∀ r L', Blockchain.add_voter fuel L id name t_tx t_block = Returns (r, L') →
     Blockchain.candidates L' = Blockchain.candidates L
     ∧ ∀ cs, Blockchain.add_voter fuel (Blockchain.set_candidates cs L)
               id name t_tx t_block
             = Returns (r, Blockchain.set_candidates cs L'))
  ∧ (∀ r L', Blockchain.add_candidate fuel L id name t_tx t_block = Returns (r, L') →
     Blockchain.voters L' = Blockchain.voters L
     ∧ ∀ vs, Blockchain.add_candidate fuel (Blockchain.set_voters vs L)
               id name t_tx t_block
             = Returns (r, Blockchain.set_voters vs L'))
  ∧ (∀ L1 fuel' name' t_tx' t_block',
       Blockchain.add_voter fuel L id name t_tx t_block = Returns (Success, L1) →
       Blockchain.candidates L !! strip id = None →
       strip name' ≠ [] →
       (∀ r L2, Blockchain.add_candidate fuel' L1 id name' t_tx' t_block'
                = Returns (r, L2) →
          r = Success
          ∧ is_Some (Blockchain.voters L2 !! strip id)
          ∧ is_Some (Blockchain.candidates L2 !! strip id))
       ∧ (∀ latest b, last (Blockchain.chain L1) = Some latest →
            Block.init fuel' (Z.of_nat (length (Blockchain.chain L1)))
              [Transaction.add_candidate
                 (Candidate.Make (strip id) (strip name')) t_tx']
              (Block.hash latest) (Blockchain.difficulty L1) t_block' = Returns b →
            ∃ L2, Blockchain.add_candidate fuel' L1 id name' t_tx' t_block'
                  = Returns (Success, L2))).
Proof.
  split; [|split].
  - intros r L' Hop. pose proof Hop as Hcases%add_voter_cases.
    destruct Hcases as [[Hr ->]|(-> & Hv & Hn & Hnew & b & Hb)].
    + split; [done|]. intros cs. revert Hop. unfold Blockchain.add_voter. simpl.
      destruct (_ || _); [by intros [= <-]|].
      case_decide; [by intros [= <-]|].
      intros [-> _]%bind_add_block_returns. done.
    + apply add_block_ledger in Hb as (-> & _ & latest & Hlast & Hinit).
      split; [done|]. intros cs.
      by rewrite (add_voter_success _ _ _ _ _ _ latest b).
  - intros r L' Hop. pose proof Hop as Hcases%add_candidate_cases.
    destruct Hcases as [[Hr ->]|(-> & Hv & Hn & Hnew & b & Hb)].
    + split; [done|]. intros vs. revert Hop. unfold Blockchain.add_candidate. simpl.
      destruct (_ || _); [by intros [= <-]|].
      case_decide; [by intros [= <-]|].
      intros [-> _]%bind_add_block_returns. done.
    + apply add_block_ledger in Hb as (-> & _ & latest & Hlast & Hinit).
      split; [done|]. intros vs.
      by rewrite (add_candidate_success _ _ _ _ _ _ latest b).
  - intros L1 fuel' name' t_tx' t_block' Hop Hfree Hname'.
    apply add_voter_cases in Hop as [[? _]|(_ & Hv & _ & _ & b & Hb)]; [done|].
    apply add_block_ledger in Hb as (-> & _). split.
    + intros r L2. rewrite add_candidate_proceeds by done.
      intros [-> [b2 Hb2]]%bind_add_block_returns.
      apply add_block_ledger in Hb2 as (-> & _). simpl.
      split; [done|]. by rewrite !lookup_insert_eq.
    + intros latest b2 Hlast Hinit. eexists.
      by apply (add_candidate_success _ _ _ _ _ _ latest b2).
Qed.

(** ** Replay *)

Section ReplayFacts.




End ReplayFacts.


(** ** Validation and tampering *)

Section ValidationFacts.

Implicit Types L : Blockchain.t.

Lemma chain_ok_validates L : chain_ok L → Blockchain.validate_chain L = Valid.
Proof.
  intros Hok. apply validate_loop_valid. intros j Hj.
  destruct (lookup_lt_is_Some_2 (Blockchain.chain L) j ltac:(lia)) as [cur Hcur].
  destruct (lookup_lt_is_Some_2 (Blockchain.chain L) (j - 1) ltac:(lia)) as [prev Hprev].
  exists cur, prev. repeat split; try done. eapply chain_ok_check; try done. lia.
Qed.

(** The check of one block reads its predecessor's stored hash and nothing
    else of it. *)
Lemma check_block_prev_hash prefix i cur p p' :
  Block.hash p' = Block.hash p →
  Blockchain.check_block prefix i cur p' = Blockchain.check_block prefix i cur p.
Proof. intros Hh. unfold Blockchain.check_block. by rewrite Hh. Qed.

(** The loop never looks at the block at position 0 beyond its stored hash. *)
Lemma validate_loop_genesis prefix g g' rest n : ∀ s,
  (1 ≤ s)%nat →
  Block.hash g' = Block.hash g →
  Blockchain.validate_loop prefix (g' :: rest) s n
  = Blockchain.validate_loop prefix (g :: rest) s n.
Proof.
  induction n as [|n IH]; intros s Hs Hh; simpl; [done|].
  destruct s as [|s]; [lia|]. simpl. rewrite Nat.sub_0_r.
  destruct (rest !! s) as [cur|]; [|done].
  destruct s as [|s]; simpl.
  - rewrite (check_block_prev_hash _ _ _ g g' Hh).
    destruct (Blockchain.check_block _ _ _ _); [done|]. apply IH; [lia|done].
  - destruct (rest !! s) as [prev|]; [|done].
    destruct (Blockchain.check_block _ _ _ _); [done|]. apply IH; [lia|done].
Qed.







(** *** The JSON text of a string gives the string back

    [py_encode_basestring_ascii] writes a character above U+FFFF as the two
    escapes of its surrogate pair, the text of the two surrogates
    themselves; on strings of scalar values it is injective. *)



















Lemma convertible_small n : Z.abs n < 10 ^ 9 → convertible n.
Proof.
  unfold convertible. intros H. eapply Z.lt_le_trans; [exact H|].
  apply Z.pow_le_mono_r; lia.
Qed.

End ValidationFacts.

(** C9: [validate_chain] never checks the genesis block.  Its loop starts at
    index 1, so a chain of one block (or none) is reported valid whatever
    that block holds; and on any chain, putting in place of the block at
    position 0 a block with the same stored hash, and any other fields
    whatever, gives the same verdict. *)
Theorem C9_genesis_never_checked :
  (∀ L, (length (Blockchain.chain L) ≤ 1)%nat → Blockchain.validate_chain L = Valid)
  ∧ (∀ L g g' rest,
       Blockchain.chain L = g :: rest →
       Block.hash g' = Block.hash g →
       Blockchain.validate_chain (Blockchain.set_chain (g' :: rest) L)
       = Blockchain.validate_chain L).
Proof.
  split.
  - intros L Hlen. unfold Blockchain.validate_chain.
    by replace (length (Blockchain.chain L) - 1)%nat with 0%nat by lia.
  - intros L g g' rest Hc Hh. unfold Blockchain.validate_chain. simpl.
    rewrite Hc. simpl. by apply validate_loop_genesis.
Qed.


(** ** The session of [Demo], checked by running it *)

Section DemoFacts.

Lemma fresh_returns :
  Blockchain.init 64 1 (Float "1700000000.5") (Float "1700000000.75")
  = Returns Demo.fresh.
Proof. vm_compute. reflexivity. Qed.

Lemma with_candidate_returns :
  Blockchain.add_candidate 64 Demo.fresh (lit " C1 ") (lit "Rose")
    (Float "1700000001.5") (Float "1700000001.75")
  = Returns (Success, Demo.with_candidate).
Proof. vm_compute. reflexivity. Qed.

Lemma with_voter_returns :
  Blockchain.add_voter 64 Demo.with_candidate (lit " V1 ") (lit " Alice ")
    (Float "1700000002.5") (Float "1700000002.75")
  = Returns (Success, Demo.with_voter).
Proof. vm_compute. reflexivity. Qed.

Lemma voted_returns :
  Blockchain.cast_vote 64 Demo.with_voter (lit "V1") (lit "C1")
    (Float "1700000003.5") (Float "1700000003.75")
  = Returns (Success, Demo.voted).
Proof. vm_compute. reflexivity. Qed.


Lemma reachable_fresh : reachable Demo.fresh.
Proof. eapply reach_init, fresh_returns. Qed.

Lemma reachable_with_candidate : reachable Demo.with_candidate.
Proof. eapply reach_add_candidate; [apply reachable_fresh|apply with_candidate_returns]. Qed.

Lemma reachable_with_voter : reachable Demo.with_voter.
Proof. eapply reach_add_voter; [apply reachable_with_candidate|apply with_voter_returns]. Qed.

Lemma reachable_voted : reachable Demo.voted.
Proof. eapply reach_cast_vote; [apply reachable_with_voter|apply voted_returns]. Qed.


Lemma x1_voter_returns :
  Blockchain.add_voter 64 Demo.fresh (lit "X1") (lit "Ann")
    (Float "1700000005.5") (Float "1700000005.75")
  = Returns (Success, Demo.x1_voter).
Proof. vm_compute. reflexivity. Qed.

Lemma x1_both_returns :
  Blockchain.add_candidate 64 Demo.x1_voter (lit "X1") (lit "Ann")
    (Float "1700000006.5") (Float "1700000006.75")
  = Returns (Success, Demo.x1_both).
Proof. vm_compute. reflexivity. Qed.

Lemma genesis_returns :
  Block.init 64 0
    [Transaction.Make (lit "GENESIS") (GenesisDict (lit "Voting chain initiated"))
       (Float "1700000000.5")]
    (times 48%N 64) 1 (Float "1700000000.75")
  = Returns (Demo.block_at Demo.fresh 0).
Proof. vm_compute. reflexivity. Qed.

(** The nonces and hashes of the session, as the program computes them. *)
Example voted_nonces : Block.nonce <$> Blockchain.chain Demo.voted = [6; 13; 1; 1].
Proof. reflexivity. Qed.

Example voted_hashes :
  Block.hash <$> Blockchain.chain Demo.voted
  = [lit "0ccab5dd0507debf2edf8410ad60a5ba1377898ad3b5fdac59c06414df095dd1";
     lit "023df625622cd695051826a393412663720a16c140338ff0a5a1841f9a267d92";
     lit "0940556cb3c4a5bdd295fdf186274556306a35ff6bc0205fb5e7da3c83f1e5b3";
     lit "02a20bb2fa49789579a13df1ff3d59d41a47b3fb2d608c5b43eaa278b0140210"].
Proof. reflexivity. Qed.

(** The block string of the genesis block, before the nonce and the
    difficulty are appended. *)
Example genesis_block_string :
  Block.block_string (Demo.block_at Demo.fresh 0)
  = lit "01700000000.75[{" ++ [34%N] ++ lit "payload" ++ [34%N] ++ lit ": {"
    ++ [34%N] ++ lit "message" ++ [34%N] ++ lit ": " ++ [34%N]
    ++ lit "Voting chain initiated" ++ [34%N] ++ lit "}, " ++ [34%N]
    ++ lit "timestamp" ++ [34%N] ++ lit ": 1700000000.5, " ++ [34%N]
    ++ lit "tx_type" ++ [34%N] ++ lit ": " ++ [34%N] ++ lit "GENESIS" ++ [34%N]
    ++ lit "}]" ++ times 48%N 64 ++ lit "61".
Proof. vm_compute. reflexivity. Qed.

Lemma voted_valid : Blockchain.validate_chain Demo.voted = Valid.
Proof. apply chain_ok_validates, reachable_chain_ok, reachable_voted. Qed.

End DemoFacts.

(** ** The properties, on the session *)

(** C1 on the genesis block of the session: nonce 6 is where the search
    stopped. *)
Lemma C1_witness :
  Block.init 64 0
    [Transaction.Make (lit "GENESIS") (GenesisDict (lit "Voting chain initiated"))
       (Float "1700000000.5")]
    (times 48%N 64) 1 (Float "1700000000.75")
  = Returns (Demo.block_at Demo.fresh 0)
  ∧ Block.nonce (Demo.block_at Demo.fresh 0) = 6
  ∧ Block.calculate_hash (Demo.block_at Demo.fresh 0)
    = Some (Block.hash (Demo.block_at Demo.fresh 0))
  ∧ take 1 (Block.hash (Demo.block_at Demo.fresh 0)) = [48%N].
Proof.
  split; [exact genesis_returns|]. split; [reflexivity|].
  exact (proj2 (C1_mined_block_sealed _ _ _ _ _ _ _ genesis_returns)).
Defined.

(** C2 on the session after the vote. *)
Lemma C2_witness :
  reachable Demo.voted
  ∧ Blockchain.validate_chain Demo.voted = Valid
  ∧ verdict_bool (Blockchain.validate_chain Demo.voted) = Some true.
Proof.
  split; [exact reachable_voted|]. exact (C2_reachable_chain_validates _ reachable_voted).
Defined.




(** C4 on the session: an unknown voter is reported before the candidate is
    looked at, and a second vote of V1 is refused. *)
Lemma C4_witness :
  Blockchain.cast_vote 64 Demo.fresh (lit "X") (lit "Y")
    (Float "1700000007.5") (Float "1700000007.75")
  = Returns (Failure UnknownVoter, Demo.fresh)
  ∧ Blockchain.cast_vote 64 Demo.with_voter (lit "V1") (lit "nobody")
      (Float "1700000007.5") (Float "1700000007.75")
    = Returns (Failure UnknownCandidate, Demo.with_voter)
  ∧ Blockchain.cast_vote 64 Demo.voted (lit " V1") (lit "C1 ")
      (Float "1700000007.5") (Float "1700000007.75")
    = Returns (Failure AlreadyVoted, Demo.voted).
Proof.
  split; [|split].
  - apply (proj1 (C4_cast_vote _ _ _ _ _ _)). vm_compute. reflexivity.
  - apply (proj1 (proj2 (C4_cast_vote _ _ _ _ _ _))).
    + vm_compute. eauto.
    + vm_compute. reflexivity.
  - apply (proj1 (proj2 (proj2 (C4_cast_vote _ _ _ _ _ _)))
             (Voter.Make (lit "V1") (lit "Alice") true)).
    + vm_compute. reflexivity.
    + vm_compute. eauto.
    + reflexivity.
Defined.

(** C5 on the vote of the session: the block with the vote is appended and
    the entry of V1, which was Alice with [has_voted] unset, is Alice with
    [has_voted] set. *)
Lemma C5_witness :
  Blockchain.voters Demo.with_voter !! lit "V1"
  = Some (Voter.Make (lit "V1") (lit "Alice") false)
  ∧ ∃ b, Blockchain.chain Demo.voted = Blockchain.chain Demo.with_voter ++ [b]
      ∧ Block.transactions b
        = [Transaction.Make (lit "CAST_VOTE") (VoteDict (lit "V1") (lit "C1"))
             (Float "1700000003.5")]
      ∧ Blockchain.voters Demo.voted
        = <[lit "V1" := Voter.Make (lit "V1") (lit "Alice") true]>
            (Blockchain.voters Demo.with_voter)
      ∧ Blockchain.voters Demo.voted !! lit "V1"
        = Some (Voter.Make (lit "V1") (lit "Alice") true)
      ∧ Blockchain.candidates Demo.voted = Blockchain.candidates Demo.with_voter.
Proof.
  assert (Blockchain.voters Demo.with_voter !! lit "V1"
          = Some (Voter.Make (lit "V1") (lit "Alice") false)) as Hbefore
    by (vm_compute; reflexivity).
  split; [exact Hbefore|].
  destruct (proj2 (proj2 (proj2 (C5_operations_atomic _ _ _ _ _ _ _ _)) voted_returns)
              eq_refl) as (b & voter & Hc & Htx & Hv & _ & Hvs & Hcs & _).
  change (strip (lit "V1")) with (lit "V1") in Hv, Hvs.
  change (strip (lit "C1")) with (lit "C1") in Htx.
  rewrite Hbefore in Hv. injection Hv as <-.
  exists b. split; [exact Hc|]. split; [exact Htx|]. split; [exact Hvs|].
  split; [|exact Hcs]. rewrite Hvs. apply lookup_insert_eq.
Defined.

(** C6 on the session: a blank id is refused, and [" V1 "], [" Alice "] are
    stored stripped. *)
Lemma C6_witness :
  Blockchain.add_voter 64 Demo.fresh (lit "  ") (lit "Name")
    (Float "1700000007.5") (Float "1700000007.75")
  = Returns (Failure EmptyField, Demo.fresh)
  ∧ Blockchain.add_voter 64 Demo.with_voter (lit "V1") (lit "Bob")
      (Float "1700000007.5") (Float "1700000007.75")
    = Returns (Failure DuplicateVoterId, Demo.with_voter)
  ∧ ∃ b, Demo.with_voter
         = Blockchain.Make 1 (Blockchain.chain Demo.with_candidate ++ [b])
             (<[lit "V1" := Voter.Make (lit "V1") (lit "Alice") false]>
                (Blockchain.voters Demo.with_candidate))
             (Blockchain.candidates Demo.with_candidate)
         ∧ Block.transactions b
           = [Transaction.Make (lit "ADD_VOTER")
                (VoterDict (lit "V1") (lit "Alice") false) (Float "1700000002.5")].
Proof.
  split; [|split].
  - apply (proj1 (C6_add_voter _ _ _ _ _ _)). left. vm_compute. reflexivity.
  - apply (proj1 (proj2 (C6_add_voter _ _ _ _ _ _))).
    + vm_compute. discriminate.
    + vm_compute. discriminate.
    + vm_compute. eauto.
  - apply (proj1 (proj2 (proj2 (C6_add_voter 64 Demo.with_candidate
                                  (lit " V1 ") (lit " Alice ")
                                  (Float "1700000002.5") (Float "1700000002.75")))
                   ltac:(vm_compute; discriminate) ltac:(vm_compute; discriminate)
                   ltac:(vm_compute; reflexivity))
             Success Demo.with_voter with_voter_returns).
Defined.

(** C8 on the genesis block of the session: nonces 0 to 5 miss, 6 meets,
    and any fuel from 6 up returns the same block. *)
Lemma C8_witness :
  Block.nonce (Demo.block_at Demo.fresh 0) = 6
  ∧ (∀ n, 0 ≤ n < 6 →
       Mining.meets
         (Mining.candidate 0
            [Transaction.Make (lit "GENESIS") (GenesisDict (lit "Voting chain initiated"))
               (Float "1700000000.5")]
            (times 48%N 64) 1 (Float "1700000000.75")) n = false)
  ∧ (∀ fuel', 6 ≤ Z.of_nat fuel' →
       Block.init fuel' 0
         [Transaction.Make (lit "GENESIS") (GenesisDict (lit "Voting chain initiated"))
            (Float "1700000000.5")]
         (times 48%N 64) 1 (Float "1700000000.75")
       = Returns (Demo.block_at Demo.fresh 0)).
Proof.
  pose proof (proj1 (C8_mining_linear_search 0
                [Transaction.Make (lit "GENESIS")
                   (GenesisDict (lit "Voting chain initiated")) (Float "1700000000.5")]
                (times 48%N 64) 1 (Float "1700000000.75"))
              64%nat (Demo.block_at Demo.fresh 0) genesis_returns)
    as (_ & _ & _ & _ & _ & _ & _ & _ & Hmiss & _ & Hfuel).
  split; [reflexivity|]. split; [exact Hmiss|exact Hfuel].
Defined.

(** C9 on the session: with the forged genesis block in place the chain is
    still reported valid, and so is a chain that is only a forged block. *)
Lemma C9_witness :
  Blockchain.validate_chain
    (Blockchain.set_chain (Demo.forged_genesis :: drop 1 (Blockchain.chain Demo.voted))
       Demo.voted) = Valid
  ∧ Blockchain.validate_chain (Blockchain.set_chain [Demo.forged_genesis] Demo.voted)
    = Valid.
Proof.
  split.
  - rewrite (proj2 C9_genesis_never_checked Demo.voted (Demo.block_at Demo.voted 0)
               Demo.forged_genesis (drop 1 (Blockchain.chain Demo.voted))
               eq_refl eq_refl).
    exact voted_valid.
  - apply (proj1 C9_genesis_never_checked). simpl. lia.
Defined.

(** C10 on the third session: [X1] is registered as a voter id, then as a
    candidate id, and ends in both tables; the first call leaves the
    candidates table alone and the second the voters table. *)
Lemma C10_witness :
  Blockchain.add_voter 64 Demo.fresh (lit "X1") (lit "Ann")
    (Float "1700000005.5") (Float "1700000005.75")
  = Returns (Success, Demo.x1_voter)
  ∧ Blockchain.add_candidate 64 Demo.x1_voter (lit "X1") (lit "Ann")
      (Float "1700000006.5") (Float "1700000006.75")
    = Returns (Success, Demo.x1_both)
  ∧ Blockchain.candidates Demo.x1_voter = Blockchain.candidates Demo.fresh
  ∧ Blockchain.voters Demo.x1_both = Blockchain.voters Demo.x1_voter
  ∧ is_Some (Blockchain.voters Demo.x1_both !! strip (lit "X1"))
  ∧ is_Some (Blockchain.candidates Demo.x1_both !! strip (lit "X1")).
Proof.
  split; [exact x1_voter_returns|]. split; [exact x1_both_returns|].
  split; [|split].
  - exact (proj1 (proj1 (C10_separate_namespaces _ _ _ _ _ _) _ _ x1_voter_returns)).
  - exact (proj1 (proj1 (proj2 (C10_separate_namespaces _ _ _ _ _ _)) _ _
                    x1_both_returns)).
  - exact (proj2 (proj1 (proj2 (proj2 (C10_separate_namespaces _ _ _ _ _ _))
                          Demo.x1_voter 64%nat (lit "Ann")
                          (Float "1700000006.5") (Float "1700000006.75")
                          x1_voter_returns eq_refl ltac:(vm_compute; discriminate))
                   Success Demo.x1_both x1_both_returns)).
Defined.


(** * Further properties of the ledger *)

(** ** One step of a history *)

Section Steps.

Implicit Types L : Blockchain.t.

(** A block appended by an operation: what the constructor was given. *)
Lemma add_block_block fuel L txs now b L' :
  Blockchain._add_block fuel L txs now = Returns (b, L') →
  Block.index b = Z.of_nat (length (Blockchain.chain L))
  ∧ Block.timestamp b = now
  ∧ Block.transactions b = txs
  ∧ Block.difficulty b = Blockchain.difficulty L
  ∧ 0 ≤ Block.nonce b
  ∧ (∃ latest, last (Blockchain.chain L) = Some latest
       ∧ Block.previous_hash b = Block.hash latest)
  ∧ ∃ bytes, Block.hash b = SHA256.hexdigest bytes.
Proof.
  intros (latest & Hlast & Hinit & ->)%add_block_returns.
  pose proof Hinit as (k & h & _ & _ & Ha & Hb)%init_returns.
  pose proof Hinit as (Hcalc & _ & ? & ? & ? & ? & ?)%init_sealed.
  repeat split; try done.
  - rewrite Hb. simpl. lia.
  - by exists latest.
  - unfold Block.calculate_hash in Hcalc.
    destruct (encode (Block.block_string b)) as [bytes|]; [|done].
    exists bytes. by injection Hcalc.
Qed.

(** The three operations, each as one step: nothing, or one block and one
    table entry. *)
Lemma add_voter_step fuel L voter_id name t_tx t_block r L' :
  Blockchain.add_voter fuel L voter_id name t_tx t_block = Returns (r, L') →
  (returned r = false ∧ L' = L)
  ∨ (r = Success
     ∧ strip voter_id ≠ [] ∧ strip name ≠ []
     ∧ Blockchain.voters L !! strip voter_id = None
     ∧ ∃ b, L' = Blockchain.Make (Blockchain.difficulty L) (Blockchain.chain L ++ [b])
                   (<[strip voter_id := Voter.Make (strip voter_id) (strip name) false]>
                      (Blockchain.voters L))
                   (Blockchain.candidates L)
          ∧ Blockchain._add_block fuel L
              [Transaction.Make (lit "ADD_VOTER")
                 (VoterDict (strip voter_id) (strip name) false) t_tx] t_block
            = Returns (b, Blockchain.set_chain (Blockchain.chain L ++ [b]) L)).
Proof.
  intros [?|(-> & ? & ? & ? & b & Hb)]%add_voter_cases; [by left|right].
  do 4 (split; [done|]). exists b.
  apply add_block_returns in Hb as (latest & Hlast & Hinit & ->). split; [done|].
  apply add_block_returns. by exists latest.
Qed.

Lemma add_candidate_step fuel L candidate_id name t_tx t_block r L' :
  Blockchain.add_candidate fuel L candidate_id name t_tx t_block = Returns (r, L') →
  (returned r = false ∧ L' = L)
  ∨ (r = Success
     ∧ strip candidate_id ≠ [] ∧ strip name ≠ []
     ∧ Blockchain.candidates L !! strip candidate_id = None
     ∧ ∃ b, L' = Blockchain.Make (Blockchain.difficulty L) (Blockchain.chain L ++ [b])
                   (Blockchain.voters L)
                   (<[strip candidate_id := Candidate.Make (strip candidate_id) (strip name)]>
                      (Blockchain.candidates L))
          ∧ Blockchain._add_block fuel L
              [Transaction.Make (lit "ADD_CANDIDATE")
                 (CandidateDict (strip candidate_id) (strip name)) t_tx] t_block
            = Returns (b, Blockchain.set_chain (Blockchain.chain L ++ [b]) L)).
Proof.
  intros [?|(-> & ? & ? & ? & b & Hb)]%add_candidate_cases; [by left|right].
  do 4 (split; [done|]). exists b.
  apply add_block_returns in Hb as (latest & Hlast & Hinit & ->). split; [done|].
  apply add_block_returns. by exists latest.
Qed.

Lemma cast_vote_step fuel L voter_id candidate_id t_tx t_block r L' :
  Blockchain.cast_vote fuel L voter_id candidate_id t_tx t_block = Returns (r, L') →
  (returned r = false ∧ L' = L)
  ∨ (r = Success
     ∧ ∃ voter, Blockchain.voters L !! strip voter_id = Some voter
       ∧ Voter.has_voted voter = false
       ∧ is_Some (Blockchain.candidates L !! strip candidate_id)
       ∧ ∃ b, L' = Blockchain.Make (Blockchain.difficulty L) (Blockchain.chain L ++ [b])
                     (<[strip voter_id := Voter.set_has_voted true voter]>
                        (Blockchain.voters L))
                     (Blockchain.candidates L)
            ∧ Blockchain._add_block fuel L
                [Transaction.Make (lit "CAST_VOTE")
                   (VoteDict (strip voter_id) (strip candidate_id)) t_tx] t_block
              = Returns (b, Blockchain.set_chain (Blockchain.chain L ++ [b]) L)).
Proof.
  intros [?|(-> & voter & ? & ? & ? & b & Hb)]%cast_vote_cases; [by left|right].
  split; [done|]. exists voter. do 3 (split; [done|]). exists b.
  apply add_block_returns in Hb as (latest & Hlast & Hinit & ->). split; [done|].
  apply add_block_returns. by exists latest.
Qed.

Lemma init_step fuel d t_tx t_block L :
  Blockchain.init fuel d t_tx t_block = Returns L →
  ∃ g, L = Blockchain.Make d [g] ∅ ∅
    ∧ Block.init fuel 0
        [Transaction.Make (lit "GENESIS") (GenesisDict (lit "Voting chain initiated")) t_tx]
        (times 48%N 64) d t_block = Returns g.
Proof.
  unfold Blockchain.init, Blockchain._create_genesis_block.
  destruct (Block.init _ _ _ _ _ _) as [g| |] eqn:E; [|done..].
  simpl. intros [= <-]. by exists g.
Qed.

Lemma evolves_reachable L L' : reachable L → evolves L L' → reachable L'.
Proof.
  intros HL. induction 1; [done|..].
  - by eapply reach_add_voter.
  - by eapply reach_add_candidate.
  - by eapply reach_cast_vote.
Qed.

End Steps.

(** ** The shape of the chain *)

Section Shape.

Implicit Types L : Blockchain.t.

Lemma block_shape_snoc d chain b i x :
  (∀ j y, chain !! j = Some y → Chain.block_shape d j y) →
  chain ≠ [] →
  Chain.block_shape d (length chain) b →
  (chain ++ [b]) !! i = Some x → Chain.block_shape d i x.
Proof.
  intros Hall Hne Hb [Hx|[Hi Hx]]%lookup_app_Some; [by apply Hall|].
  apply list_lookup_singleton_Some in Hx as [Hi' <-].
  by replace i with (length chain) by lia.
Qed.

Lemma appended_block_shape fuel L tx now b L' :
  Blockchain.chain L ≠ [] →
  Chain.written tx →
  Transaction.tx_type tx ≠ lit "GENESIS" →
  Blockchain._add_block fuel L [tx] now = Returns (b, L') →
  Chain.block_shape (Blockchain.difficulty L) (length (Blockchain.chain L)) b.
Proof.
  intros Hne Hw Hty (Hi & _ & Htx & Hd & Hn & _)%add_block_block.
  assert (length (Blockchain.chain L) ≠ 0%nat) by by destruct (Blockchain.chain L).
  do 3 (split; [done|]). split; [done|].
  exists tx. do 2 (split; [done|]). split; [done|lia].
Qed.

End Shape.

(** Every block of a produced chain has the shape of its position. *)
Lemma reachable_block_shape L :
  reachable L →
  Blockchain.chain L ≠ []
  ∧ ∀ i b, Blockchain.chain L !! i = Some b →
      Chain.block_shape (Blockchain.difficulty L) i b.
Proof.
  induction 1 as [fuel d t1 t2 L Hinit
                 |fuel L id name t1 t2 r L' _ [Hne IH] Hop
                 |fuel L id name t1 t2 r L' _ [Hne IH] Hop
                 |fuel L id cid t1 t2 r L' _ [Hne IH] Hop].
  - apply init_step in Hinit as (g & -> & Hg). split; [done|].
    intros i b [-> <-]%list_lookup_singleton_Some.
    pose proof Hg as (k & h & _ & _ & _ & Hb)%init_returns.
    apply init_sealed in Hg as (_ & _ & ? & _ & ? & ? & ?).
    do 2 (split; [done|]). split; [rewrite Hb; simpl; lia|]. split; [done|].
    eexists. split; [done|]. split; [constructor|done].
  - apply add_voter_step in Hop as [[_ ->]|(_ & _ & _ & _ & b & -> & Hb)]; [done|].
    split; [by destruct (Blockchain.chain L)|]. simpl. intros i x.
    apply block_shape_snoc; try done.
    refine (appended_block_shape _ _ _ _ _ _ Hne _ _ Hb); [constructor|].
    cbn [Transaction.tx_type]. intros E. vm_compute in E. discriminate E.
  - apply add_candidate_step in Hop as [[_ ->]|(_ & _ & _ & _ & b & -> & Hb)]; [done|].
    split; [by destruct (Blockchain.chain L)|]. simpl. intros i x.
    apply block_shape_snoc; try done.
    refine (appended_block_shape _ _ _ _ _ _ Hne _ _ Hb); [constructor|].
    cbn [Transaction.tx_type]. intros E. vm_compute in E. discriminate E.
  - apply cast_vote_step in Hop as [[_ ->]|(_ & v & _ & _ & _ & b & -> & Hb)]; [done|].
    split; [by destruct (Blockchain.chain L)|]. simpl. intros i x.
    apply block_shape_snoc; try done.
    refine (appended_block_shape _ _ _ _ _ _ Hne _ _ Hb); [constructor|].
    cbn [Transaction.tx_type]. intros E. vm_compute in E. discriminate E.
Qed.

(** X1: in every ledger the operations produce, the chain starts with a
    block whose previous hash is 64 zeros, and the block at each position
    [i] has index [i], the ledger's difficulty and a nonce of at least 0,
    and holds exactly one transaction, whose type names its payload: the
    genesis transaction at position 0 and nowhere else, and a voter always
    recorded with [has_voted] unset. *)
Theorem X1_chain_shape L :
  reachable L →
  (∃ g rest, Blockchain.chain L = g :: rest
     ∧ Block.previous_hash g = times 48%N 64)
  ∧ ∀ i b, Blockchain.chain L !! i = Some b →
      Block.index b = Z.of_nat i
      ∧ Block.difficulty b = Blockchain.difficulty L
      ∧ 0 ≤ Block.nonce b
      ∧ ∃ tx, Block.transactions b = [tx] ∧ Chain.written tx
          ∧ (Transaction.tx_type tx = lit "GENESIS" ↔ i = 0%nat).
Proof.
  intros [Hne Hshape]%reachable_block_shape. split.
  - destruct (Blockchain.chain L) as [|g rest] eqn:E; [done|].
    exists g, rest. split; [done|].
    destruct (Hshape 0%nat g eq_refl) as (_ & _ & _ & Hprev & _). by apply Hprev.
  - intros i b Hb. destruct (Hshape i b Hb) as (? & ? & ? & _ & ?). done.
Qed.

(** ** Hashes as text, and what can raise *)

Section HashText.

Implicit Types L : Blockchain.t.

Lemma length_hex_fixed k n : length (hex_fixed k n) = k.
Proof.
  revert n. induction k as [|k IH]; intros n; simpl; [done|].
  rewrite length_app, IH. simpl. lia.
Qed.

Lemma hexchar_hex_digit d : (d < 16)%N → Chain.hexchar (hex_digit d).
Proof.
  intros Hd. unfold Chain.hexchar, hex_digit.
  destruct (N.ltb_spec d 10); [left|right]; lia.
Qed.

Lemma hexchar_hex_fixed k n : Forall Chain.hexchar (hex_fixed k n).
Proof.
  revert n. induction k as [|k IH]; intros n; simpl; [constructor|].
  apply Forall_app_2; [apply IH|]. apply Forall_cons_2; [|constructor].
  apply hexchar_hex_digit. change 15%N with (N.ones 4). rewrite N.land_ones.
  by apply N.mod_lt.
Qed.

Lemma hexdigest_hex64 bytes : Chain.hex64 (SHA256.hexdigest bytes).
Proof.
  unfold SHA256.hexdigest, SHA256.hex_word. cbn [fmap list_fmap concat].
  split.
  - rewrite !length_app, !length_hex_fixed. done.
  - repeat (apply Forall_app_2; [apply hexchar_hex_fixed|]). constructor.
Qed.

Lemma zeros_hex64 : Chain.hex64 (times 48%N 64).
Proof.
  split; [done|]. apply Forall_forall. intros c Hc.
  apply elem_of_replicate in Hc as [-> _]. left. lia.
Qed.

Lemma calculate_hash_hex64 b h : Block.calculate_hash b = Some h → Chain.hex64 h.
Proof.
  unfold Block.calculate_hash.
  destruct (encode (Block.block_string b)) as [bytes|]; [|done].
  intros [= <-]. apply hexdigest_hex64.
Qed.

Lemma hex64_encodes s : Chain.hex64 s → is_Some (encode s).
Proof.
  intros [_ Hs]. apply encode_low. eapply Forall_impl; [exact Hs|].
  intros c [?|?]; lia.
Qed.

(** The loop does not raise once its first hash could be computed. *)
Lemma mine_loop_not_raises fuel : ∀ b n h e,
  Mining.attempt b n = Some h →
  Block.mine_loop fuel (Mining.target b) (Block.set_nonce n b) h ≠ Raises e.
Proof.
  induction fuel as [|fuel IH]; intros b n h e Hh; simpl;
    destruct (startswith h (Mining.target b)); try done.
  change (Block.calculate_hash _) with (Mining.attempt b (n + 1)).
  change (Block.set_nonce _ (Block.set_nonce n b)) with (Block.set_nonce (n + 1) b).
  destruct (attempt_is_Some b n (n + 1)) as [h1 H1]; [by rewrite Hh|].
  rewrite H1. by apply IH.
Qed.

Lemma init_not_raises fuel index txs prev d now e :
  is_Some (encode prev) →
  Block.init fuel index txs prev d now ≠ Raises e.
Proof.
  intros Hprev. unfold Block.init, Block.mine_block.
  set (c := Block.Make index now txs prev 0 d []).
  destruct (calculate_hash_is_Some c) as [_ [h Hh]]; [done|]. rewrite Hh.
  pose proof (mine_loop_not_raises fuel c 0 h e) as Hloop.
  change (Block.set_nonce 0 c) with c in Hloop.
  change (Mining.target c) with (times 48%N (Block.difficulty c)) in Hloop.
  destruct (Block.mine_loop fuel _ c h) as [[h' c']| |] eqn:E; simpl; try done.
  intros [= ->]. by eapply Hloop.
Qed.


(** Every stored hash of a produced chain is a digest. *)
Lemma reachable_hashes L i b :
  reachable L → Blockchain.chain L !! i = Some b → Chain.hex64 (Block.hash b).
Proof.
  intros HL Hb. eapply calculate_hash_hex64.
  by eapply (ok_hash L (reachable_chain_ok L HL)).
Qed.

Lemma reachable_latest L :
  reachable L →
  ∃ latest, last (Blockchain.chain L) = Some latest ∧ Chain.hex64 (Block.hash latest).
Proof.
  intros HL. pose proof (ok_nonempty L (reachable_chain_ok L HL)) as Hne.
  destruct (last (Blockchain.chain L)) as [latest|] eqn:E.
  - exists latest. split; [done|]. rewrite last_lookup in E. by eapply reachable_hashes.
  - apply last_None in E. done.
Qed.

(** On a produced ledger [_add_block] does not raise, whatever it is given
    to append and whatever the tables hold. *)
Lemma add_block_not_raises fuel L vs cs txs now e :
  reachable L →
  Blockchain._add_block fuel
    (Blockchain.Make (Blockchain.difficulty L) (Blockchain.chain L) vs cs) txs now
  ≠ Raises e.
Proof.
  intros (latest & Hlast & Hhex)%reachable_latest.
  unfold Blockchain._add_block, Blockchain.get_latest_block. simpl. rewrite Hlast.
  simpl.
  pose proof (init_not_raises fuel (Z.of_nat (length (Blockchain.chain L))) txs
                (Block.hash latest) (Blockchain.difficulty L) now e
                (hex64_encodes _ Hhex)) as Hnr.
  destruct (Block.init _ _ _ _ _ _); simpl; congruence.
Qed.

End HashText.

(** X2: in every ledger the operations produce, the stored hash and the
    previous hash of every block are 64 lower-case hexadecimal digits. *)
Theorem X2_hashes_are_hex64 L i b :
  reachable L →
  Blockchain.chain L !! i = Some b →
  Chain.hex64 (Block.hash b) ∧ Chain.hex64 (Block.previous_hash b).
Proof.
  intros HL Hb. split; [by eapply reachable_hashes|].
  destruct i as [|i].
  - destruct (reachable_block_shape L HL) as [_ Hshape].
    destruct (Hshape 0%nat b Hb) as (_ & _ & _ & Hprev & _).
    rewrite Hprev by done. apply zeros_hex64.
  - apply lookup_lt_Some in Hb as Hlt.
    destruct (lookup_lt_is_Some_2 (Blockchain.chain L) i ltac:(lia)) as [p Hp].
    rewrite (ok_link L (reachable_chain_ok L HL) i b p Hb Hp).
    by eapply reachable_hashes.
Qed.

(** On a produced ledger none of the three operations raises. *)
Lemma reachable_not_raises L fuel x y t_tx t_block e :
  reachable L →
  Blockchain.add_voter fuel L x y t_tx t_block ≠ Raises e
  ∧ Blockchain.add_candidate fuel L x y t_tx t_block ≠ Raises e
  ∧ Blockchain.cast_vote fuel L x y t_tx t_block ≠ Raises e.
Proof.
  intros HL. repeat split.
  - unfold Blockchain.add_voter. destruct (_ || _); [done|]. case_decide; [done|].
    pose proof (add_block_not_raises fuel L
                  (<[strip x := Voter.new (strip x) (strip y)]> (Blockchain.voters L))
                  (Blockchain.candidates L)
                  [Transaction.add_voter (Voter.new (strip x) (strip y)) t_tx]
                  t_block e HL) as Hnr.
    unfold Blockchain.set_voters.
    destruct (Blockchain._add_block _ _ _ _) as [[b L1]| |]; simpl; congruence.
  - unfold Blockchain.add_candidate. destruct (_ || _); [done|]. case_decide; [done|].
    pose proof (add_block_not_raises fuel L (Blockchain.voters L)
                  (<[strip x := Candidate.Make (strip x) (strip y)]>
                     (Blockchain.candidates L))
                  [Transaction.add_candidate (Candidate.Make (strip x) (strip y)) t_tx]
                  t_block e HL) as Hnr.
    unfold Blockchain.set_candidates.
    destruct (Blockchain._add_block _ _ _ _) as [[b L1]| |]; simpl; congruence.
  - unfold Blockchain.cast_vote.
    destruct (Blockchain.voters L !! strip x) as [voter|]; [|done].
    case_decide; [done|]. destruct (Voter.has_voted voter); [done|].
    pose proof (add_block_not_raises fuel L
                  (<[strip x := Voter.set_has_voted true voter]> (Blockchain.voters L))
                  (Blockchain.candidates L)
                  [Transaction.cast_vote (strip x) (strip y) t_tx]
                  t_block e HL) as Hnr.
    unfold Blockchain.set_voters.
    destruct (Blockchain._add_block _ _ _ _) as [[b L1]| |]; simpl; congruence.
Qed.

(** Building a fresh ledger does not raise. *)
Lemma init_ledger_not_raises fuel d t_tx t_block e :
  Blockchain.init fuel d t_tx t_block ≠ Raises e.
Proof.
  unfold Blockchain.init, Blockchain._create_genesis_block.
  pose proof (init_not_raises fuel 0
                [Transaction.Make (lit "GENESIS")
                   (GenesisDict (lit "Voting chain initiated")) t_tx]
                (times 48%N 64) d t_block e (hex64_encodes _ zeros_hex64)) as Hnr.
  destruct (Block.init _ _ _ _ _ _); simpl; congruence.
Qed.

(** ** The operations with their [print] *)

Section PrintedFacts.

Lemma print_agrees out text res self pure :
  pure = Returns (res, self) →
  Printed.agrees out (Printed.print out text (returned res) self) pure.
Proof.
  intros ->. unfold Printed.print. destruct (out text) eqn:E; simpl; eauto.
Qed.

Lemma add_voter_agrees L out fuel x y t_tx t_block :
  reachable L →
  Printed.agrees out (Printed.add_voter out fuel L x y t_tx t_block)
    (Blockchain.add_voter fuel L x y t_tx t_block).
Proof.
  intros HL. unfold Printed.add_voter, Blockchain.add_voter.
  destruct (_ || _); [by apply (print_agrees _ _ (Failure EmptyField))|].
  case_decide; [by apply (print_agrees _ _ (Failure DuplicateVoterId))|].
  pose proof (λ e, add_block_not_raises fuel L
                     (<[strip x := Voter.new (strip x) (strip y)]> (Blockchain.voters L))
                     (Blockchain.candidates L)
                     [Transaction.add_voter (Voter.new (strip x) (strip y)) t_tx]
                     t_block e HL) as Hnr.
  unfold Blockchain.set_voters.
  destruct (Blockchain._add_block _ _ _ _) as [[b L1]|e|]; simpl.
  - by apply (print_agrees _ _ Success).
  - by destruct (Hnr e).
  - done.
Qed.

Lemma add_candidate_agrees L out fuel x y t_tx t_block :
  reachable L →
  Printed.agrees out (Printed.add_candidate out fuel L x y t_tx t_block)
    (Blockchain.add_candidate fuel L x y t_tx t_block).
Proof.
  intros HL. unfold Printed.add_candidate, Blockchain.add_candidate.
  destruct (_ || _); [by apply (print_agrees _ _ (Failure EmptyField))|].
  case_decide; [by apply (print_agrees _ _ (Failure DuplicateCandidateId))|].
  pose proof (λ e, add_block_not_raises fuel L (Blockchain.voters L)
                     (<[strip x := Candidate.Make (strip x) (strip y)]>
                        (Blockchain.candidates L))
                     [Transaction.add_candidate (Candidate.Make (strip x) (strip y)) t_tx]
                     t_block e HL) as Hnr.
  unfold Blockchain.set_candidates.
  destruct (Blockchain._add_block _ _ _ _) as [[b L1]|e|]; simpl.
  - by apply (print_agrees _ _ Success).
  - by destruct (Hnr e).
  - done.
Qed.

Lemma cast_vote_agrees L out fuel x y t_tx t_block :
  reachable L →
  Printed.agrees out (Printed.cast_vote out fuel L x y t_tx t_block)
    (Blockchain.cast_vote fuel L x y t_tx t_block).
Proof.
  intros HL. unfold Printed.cast_vote, Blockchain.cast_vote.
  destruct (Blockchain.voters L !! strip x) as [voter|];
    [|by apply (print_agrees _ _ (Failure UnknownVoter))].
  case_decide; [by apply (print_agrees _ _ (Failure UnknownCandidate))|].
  destruct (Voter.has_voted voter);
    [by apply (print_agrees _ _ (Failure AlreadyVoted))|].
  pose proof (λ e, add_block_not_raises fuel L
                     (<[strip x := Voter.set_has_voted true voter]> (Blockchain.voters L))
                     (Blockchain.candidates L)
                     [Transaction.cast_vote (strip x) (strip y) t_tx]
                     t_block e HL) as Hnr.
  unfold Blockchain.set_voters.
  destruct (Blockchain._add_block _ _ _ _) as [[b L1]|e|]; simpl.
  - by apply (print_agrees _ _ Success).
  - by destruct (Hnr e).
  - done.
Qed.

Lemma validate_chain_printed L out :
  reachable L →
  Printed.validate_chain out L
  = Printed.print out (Printed.check ++ lit " Blockchain is valid.") true L.
Proof.
  intros HL. unfold Printed.validate_chain.
  by rewrite (chain_ok_validates L (reachable_chain_ok L HL)).
Qed.

End PrintedFacts.

(** X3: on a ledger the operations produced, nothing in [add_voter],
    [add_candidate], [cast_vote] and [validate_chain] raises but the [print]
    each of them ends with.  A call that returns, returns what the
    operation taken without its [print] returns.  When the [print] raises,
    the stream refused its text, and the ledger is left as the operation
    returns it: unchanged when the call was about to return [False], with
    the table written and the block appended when it was about to return
    [True].  A call that does neither is still mining.  [validate_chain]
    finds the chain valid and prints that. *)
Theorem X3_only_print_raises L out fuel x y t_tx t_block :
  reachable L →
  Printed.agrees out (Printed.add_voter out fuel L x y t_tx t_block)
    (Blockchain.add_voter fuel L x y t_tx t_block)
  ∧ Printed.agrees out (Printed.add_candidate out fuel L x y t_tx t_block)
      (Blockchain.add_candidate fuel L x y t_tx t_block)
  ∧ Printed.agrees out (Printed.cast_vote out fuel L x y t_tx t_block)
      (Blockchain.cast_vote fuel L x y t_tx t_block)
  ∧ Printed.validate_chain out L
    = Printed.print out (Printed.check ++ lit " Blockchain is valid.") true L.
Proof.
  intros HL. split; [by apply add_voter_agrees|].
  split; [by apply add_candidate_agrees|].
  split; [by apply cast_vote_agrees|]. by apply validate_chain_printed.
Qed.


(** X5: with a difficulty of 0 or less (and one ["0" * difficulty] takes)
    the target is the empty prefix, so mining stops at nonce 0 without an
    increment: whatever the fuel, the constructor returns the block with
    nonce 0 and the digest of its block string, provided the index is an
    int the f-string converts and the previous hash can be encoded. *)
Theorem X5_mining_without_target fuel index txs prev d now :
  - 2 ^ 63 ≤ d ≤ 0 →
  convertible index →
  is_Some (encode prev) →
  ∃ h, Block.calculate_hash (Block.Make index now txs prev 0 d h) = Some h
    ∧ Block.init fuel index txs prev d now
      = Returns (Block.Make index now txs prev 0 d h).
Proof.
  intros [_ Hd] _ Hprev. set (c := Block.Make index now txs prev 0 d []).
  destruct (calculate_hash_is_Some c) as [_ [h Hh]]; [done|].
  exists h. split; [exact Hh|].
  unfold Block.init, Block.mine_block. fold c. rewrite Hh.
  assert (times 48%N (Block.difficulty c) = []) as ->.
  { unfold times. simpl. by replace (Z.to_nat d) with 0%nat by lia. }
  by destruct fuel.
Qed.

(** ** What [strip] leaves, and what the tables hold *)

Section StripFacts.

Implicit Types s : str.

Lemma rev_reverse s : rev s = reverse s.
Proof. unfold reverse. by rewrite <-rev_alt. Qed.

Lemma lstrip_head s c : head (lstrip s) = Some c → isspace c = false.
Proof.
  induction s as [|a s IH]; simpl; [done|].
  destruct (isspace a) eqn:E; [done|]. simpl. by intros [= <-].
Qed.

Lemma lstrip_suffix s : ∃ ws, s = ws ++ lstrip s.
Proof.
  induction s as [|a s [ws IH]]; simpl; [by exists []|].
  destruct (isspace a); [|by exists []].
  exists (a :: ws). simpl. by rewrite <-IH.
Qed.

Lemma lstrip_fixed s : (∀ c, head s = Some c → isspace c = false) → lstrip s = s.
Proof. destruct s as [|a s]; simpl; [done|]. intros H. by rewrite (H a). Qed.

Lemma rstrip_prefix s : ∃ ws, s = rstrip s ++ ws.
Proof.
  unfold rstrip. destruct (lstrip_suffix (rev s)) as [ws Hws].
  exists (rev ws). rewrite <-rev_app_distr, <-Hws. by rewrite rev_involutive.
Qed.

Lemma rstrip_last s c : last (rstrip s) = Some c → isspace c = false.
Proof.
  unfold rstrip. rewrite rev_reverse, last_reverse. apply lstrip_head.
Qed.

Lemma rstrip_fixed s : (∀ c, last s = Some c → isspace c = false) → rstrip s = s.
Proof.
  intros H. unfold rstrip. rewrite lstrip_fixed; [apply rev_involutive|].
  intros c. rewrite rev_reverse, head_reverse. apply H.
Qed.

Lemma rstrip_head s c : head (rstrip s) = Some c → head s = Some c.
Proof.
  destruct (rstrip_prefix s) as [ws Hws]. rewrite Hws at 2.
  destruct (rstrip s); [done|]. done.
Qed.

Lemma strip_stripped s : Chain.stripped (strip s).
Proof.
  unfold strip. split.
  - intros c Hc%rstrip_head. by eapply lstrip_head.
  - apply rstrip_last.
Qed.

Lemma strip_fixed s : Chain.stripped s → strip s = s.
Proof.
  intros [Hh Hl]. unfold strip. rewrite lstrip_fixed by done. by apply rstrip_fixed.
Qed.

Lemma strip_idemp s : strip (strip s) = strip s.
Proof. apply strip_fixed, strip_stripped. Qed.

End StripFacts.

(** X6: in every ledger the operations produce, a voter is filed under its
    own [voter_id] and a candidate under its own [candidate_id]; ids and
    names are not empty and neither begin nor end with whitespace, so
    stripping them again changes nothing. *)
Theorem X6_tables_hold_stripped_records L :
  reachable L →
  (∀ k v, Blockchain.voters L !! k = Some v →
     Voter.voter_id v = k ∧ k ≠ [] ∧ Voter.name v ≠ []
     ∧ strip k = k ∧ strip (Voter.name v) = Voter.name v)
  ∧ (∀ k c, Blockchain.candidates L !! k = Some c →
     Candidate.candidate_id c = k ∧ k ≠ [] ∧ Candidate.name c ≠ []
     ∧ strip k = k ∧ strip (Candidate.name c) = Candidate.name c).
Proof.
  induction 1 as [fuel d t1 t2 L Hinit
                 |fuel L id name t1 t2 r L' _ [IHv IHc] Hop
                 |fuel L id name t1 t2 r L' _ [IHv IHc] Hop
                 |fuel L id cid t1 t2 r L' _ [IHv IHc] Hop].
  - apply init_step in Hinit as (g & -> & _). by split.
  - apply add_voter_step in Hop as [[_ ->]|(_ & Hid & Hname & _ & b & -> & _)];
      [done|].
    split; [|done]. simpl.
    intros k v [[<- <-]|[_ Hk]]%lookup_insert_Some; [|by apply IHv].
    simpl. by rewrite !strip_idemp.
  - apply add_candidate_step in Hop as [[_ ->]|(_ & Hid & Hname & _ & b & -> & _)];
      [done|].
    split; [done|]. simpl.
    intros k v [[<- <-]|[_ Hk]]%lookup_insert_Some; [|by apply IHc].
    simpl. by rewrite !strip_idemp.
  - apply cast_vote_step in Hop as [[_ ->]|(_ & v & Hv & _ & _ & b & -> & _)];
      [done|].
    split; [|done]. simpl.
    intros k v' [[<- <-]|[_ Hk]]%lookup_insert_Some; [|by apply IHv].
    simpl. by apply IHv.
Qed.


(** ** Histories *)

Section Histories.

Implicit Types L : Blockchain.t.

Lemma extends_refl L : extends L L.
Proof. split; [done|]. split; [done|]. split; [done|]. intros k v Hv. by exists v. Qed.

Lemma extends_trans L1 L2 L3 : extends L1 L2 → extends L2 L3 → extends L1 L3.
Proof.
  intros (Hc1 & Hd1 & Hcs1 & Hvs1) (Hc2 & Hd2 & Hcs2 & Hvs2).
  split; [by etrans|]. split; [congruence|]. split; [by auto|].
  intros k v Hv. destruct (Hvs1 k v Hv) as (v1 & Hv1 & ? & ? & ?).
  destruct (Hvs2 k v1 Hv1) as (v2 & Hv2 & ? & ? & ?).
  exists v2. repeat split; try congruence. auto.
Qed.

Lemma add_voter_extends fuel L x y t_tx t_block r L' :
  Blockchain.add_voter fuel L x y t_tx t_block = Returns (r, L') → extends L L'.
Proof.
  intros [[_ ->]|(_ & _ & _ & Hnew & b & -> & _)]%add_voter_step;
    [apply extends_refl|].
  split; [by apply prefix_app_r|]. split; [done|]. split; [done|]. simpl.
  intros k v Hv. exists v. split; [|done].
  rewrite lookup_insert_ne; [done|]. intros <-. congruence.
Qed.

Lemma add_candidate_extends fuel L x y t_tx t_block r L' :
  Blockchain.add_candidate fuel L x y t_tx t_block = Returns (r, L') → extends L L'.
Proof.
  intros [[_ ->]|(_ & _ & _ & Hnew & b & -> & _)]%add_candidate_step;
    [apply extends_refl|].
  split; [by apply prefix_app_r|]. split; [done|]. split; simpl.
  - intros k c Hc. rewrite lookup_insert_ne; [done|]. intros <-. congruence.
  - intros k v Hv. by exists v.
Qed.

Lemma cast_vote_extends fuel L x y t_tx t_block r L' :
  Blockchain.cast_vote fuel L x y t_tx t_block = Returns (r, L') → extends L L'.
Proof.
  intros [[_ ->]|(_ & voter & Hvoter & _ & _ & b & -> & _)]%cast_vote_step;
    [apply extends_refl|].
  split; [by apply prefix_app_r|]. split; [done|]. split; [done|]. simpl.
  intros k v Hv. destruct (decide (strip x = k)) as [<-|Hne].
  - rewrite lookup_insert_eq. eexists. split; [done|].
    assert (v = voter) as -> by congruence. done.
  - rewrite lookup_insert_ne by done. by exists v.
Qed.

Lemma evolves_extends L L' : evolves L L' → extends L L'.
Proof.
  induction 1 as [|? ? ? ? ? ? ? ? _ IH Hop|? ? ? ? ? ? ? ? _ IH Hop
                 |? ? ? ? ? ? ? ? _ IH Hop]; [apply extends_refl|..];
    (eapply extends_trans; [exact IH|]).
  - by eapply add_voter_extends.
  - by eapply add_candidate_extends.
  - by eapply cast_vote_extends.
Qed.

End Histories.

(** X7: the operations only add.  In any ledger later in the same history
    the old chain is the beginning of the chain, the difficulty is
    unchanged, every candidate is still there unchanged, and every voter is
    still there with its id and name, and with [has_voted] still set if it
    was. *)
Theorem X7_history_only_grows L L' :
  evolves L L' →
  Blockchain.chain L `prefix_of` Blockchain.chain L'
  ∧ Blockchain.difficulty L' = Blockchain.difficulty L
  ∧ (∀ k c, Blockchain.candidates L !! k = Some c →
       Blockchain.candidates L' !! k = Some c)
  ∧ (∀ k v, Blockchain.voters L !! k = Some v →
       ∃ v', Blockchain.voters L' !! k = Some v'
         ∧ Voter.voter_id v' = Voter.voter_id v
         ∧ Voter.name v' = Voter.name v
         ∧ (Voter.has_voted v = true → Voter.has_voted v' = true)).
Proof. intros H%evolves_extends. exact H. Qed.

(** X8: a voter votes once.  After [cast_vote] has succeeded for a voter,
    every later [cast_vote] whose voter id strips to the same id, whatever
    happened in between, is refused and leaves the ledger as it is: with
    [AlreadyVoted] when the candidate is known (the candidate of the first
    vote always is), with [UnknownCandidate] otherwise. *)
Theorem X8_no_second_vote fuel L x y t_tx t_block L1 L2 fuel' x' y' t_tx' t_block' :
  Blockchain.cast_vote fuel L x y t_tx t_block = Returns (Success, L1) →
  evolves L1 L2 →
  strip x' = strip x →
  (is_Some (Blockchain.candidates L2 !! strip y') →
     Blockchain.cast_vote fuel' L2 x' y' t_tx' t_block'
     = Returns (Failure AlreadyVoted, L2))
  ∧ (Blockchain.candidates L2 !! strip y' = None →
     Blockchain.cast_vote fuel' L2 x' y' t_tx' t_block'
     = Returns (Failure UnknownCandidate, L2))
  ∧ is_Some (Blockchain.candidates L2 !! strip y).
Proof.
  intros Hvote (_ & _ & Hcs & Hvs)%evolves_extends Hx.
  apply cast_vote_step in Hvote as [[? _]|(_ & voter & Hv & _ & [c Hc] & b & -> & _)];
    [done|].
  destruct (Hvs (strip x) (Voter.set_has_voted true voter))
    as (v2 & Hv2 & _ & _ & Hvoted); [simpl; apply lookup_insert_eq|].
  specialize (Hvoted eq_refl).
  unfold Blockchain.cast_vote. rewrite Hx, Hv2. repeat split.
  - intros Hy. rewrite decide_False by by apply not_eq_None_Some. by rewrite Hvoted.
  - intros Hy. by rewrite decide_True.
  - exists c. by apply Hcs.
Qed.

(** ** The votes in the chain *)

Section Votes.

Implicit Types L : Blockchain.t.

Lemma votes_snoc chain b :
  Chain.votes (chain ++ [b])
  = Chain.votes chain ++ omap Chain.vote_of (Block.transactions b).
Proof.
  unfold Chain.votes, Chain.txs. rewrite bind_app, omap_app. simpl.
  by rewrite (right_id_L [] (++)).
Qed.

Lemma votes_by_snoc chain b voter_id :
  Chain.votes_by (chain ++ [b]) voter_id
  = Chain.votes_by chain voter_id
    ++ (snd <$> filter (λ vc, fst vc = voter_id)
                  (omap Chain.vote_of (Block.transactions b))).
Proof. unfold Chain.votes_by. by rewrite votes_snoc, filter_app, fmap_app. Qed.

(** The votes of a ledger one block longer. *)
Lemma add_block_votes fuel L tx now b L' :
  Blockchain._add_block fuel L [tx] now = Returns (b, L') →
  ∀ chain, Chain.votes (chain ++ [b]) = Chain.votes chain ++ omap Chain.vote_of [tx].
Proof. intros (_ & _ & Htx & _)%add_block_block chain. by rewrite votes_snoc, Htx. Qed.

Lemma add_block_votes_by fuel L tx now b L' :
  Blockchain._add_block fuel L [tx] now = Returns (b, L') →
  ∀ chain voter_id,
    Chain.votes_by (chain ++ [b]) voter_id
    = Chain.votes_by chain voter_id
      ++ (snd <$> filter (λ vc, fst vc = voter_id) (omap Chain.vote_of [tx])).
Proof.
  intros (_ & _ & Htx & _)%add_block_block chain voter_id.
  by rewrite votes_by_snoc, Htx.
Qed.

Lemma reachable_tallied L voter_id : reachable L → tallied L voter_id.
Proof.
  intros HL. revert voter_id.
  induction HL as [fuel d t1 t2 L Hinit
                  |fuel L id name t1 t2 r L' _ IH Hop
                  |fuel L id name t1 t2 r L' _ IH Hop
                  |fuel L id cid t1 t2 r L' _ IH Hop]; intros vid.
  - apply init_step in Hinit as (g & -> & Hg).
    apply init_sealed in Hg as (_ & _ & _ & _ & Htx & _).
    unfold tallied, Chain.votes_by, Chain.votes, Chain.txs. simpl.
    rewrite Htx. by rewrite lookup_empty.
  - apply add_voter_step in Hop as [[_ ->]|(_ & _ & _ & Hnew & b & -> & Hb)];
      [done|].
    specialize (IH vid). unfold tallied in *. simpl.
    rewrite (add_block_votes_by _ _ _ _ _ _ Hb). simpl.
    rewrite (right_id_L [] (++)).
    destruct (decide (strip id = vid)) as [<-|Hne].
    + rewrite lookup_insert_eq. simpl. by rewrite Hnew in IH.
    + by rewrite lookup_insert_ne.
  - apply add_candidate_step in Hop as [[_ ->]|(_ & _ & _ & Hnew & b & -> & Hb)];
      [done|].
    specialize (IH vid). unfold tallied in *. simpl.
    rewrite (add_block_votes_by _ _ _ _ _ _ Hb). simpl.
    rewrite (right_id_L [] (++)).
    destruct (Blockchain.voters L !! vid) as [v|]; [|done].
    destruct (Voter.has_voted v); [|done].
    destruct IH as (c & Hc & [x Hx]). exists c. split; [done|].
    destruct (decide (strip id = c)) as [<-|Hne].
    * rewrite lookup_insert_eq. eauto.
    * rewrite lookup_insert_ne by done. eauto.
  - apply cast_vote_step in Hop as [[_ ->]|(_ & v & Hv & Hhv & Hc & b & -> & Hb)];
      [done|].
    specialize (IH vid). unfold tallied in *. simpl.
    rewrite (add_block_votes_by _ _ _ _ _ _ Hb). simpl.
    destruct (decide (strip id = vid)) as [<-|Hne].
    + rewrite lookup_insert_eq. simpl. rewrite Hv, Hhv in IH. rewrite IH.
      rewrite filter_cons_True by done. simpl. eauto.
    + rewrite lookup_insert_ne by done.
      rewrite filter_cons_False by done. simpl. by rewrite (right_id_L [] (++)).
Qed.

Lemma elem_of_votes_by chain v c :
  (v, c) ∈ Chain.votes chain → c ∈ Chain.votes_by chain v.
Proof.
  intros H. unfold Chain.votes_by. apply list_elem_of_fmap. exists (v, c).
  split; [done|]. by apply list_elem_of_filter.
Qed.

End Votes.

(** X9: one vote for each voter.  In every ledger the operations produce,
    the chain holds exactly one vote of a voter whose [has_voted] is set,
    and that vote is for a registered candidate; it holds no vote of a
    voter whose [has_voted] is unset, and none under an id that is not a
    voter's.  So every vote in the chain is the only vote of a registered
    voter marked as having voted, for a registered candidate. *)
Theorem X9_one_vote_per_voter L :
  reachable L →
  (∀ voter_id,
     match Blockchain.voters L !! voter_id with
     | Some v =>
         if Voter.has_voted v
         then ∃ c, Chain.votes_by (Blockchain.chain L) voter_id = [c]
                ∧ is_Some (Blockchain.candidates L !! c)
         else Chain.votes_by (Blockchain.chain L) voter_id = []
     | None => Chain.votes_by (Blockchain.chain L) voter_id = []
     end)
  ∧ (∀ voter_id c, (voter_id, c) ∈ Chain.votes (Blockchain.chain L) →
       (∃ v, Blockchain.voters L !! voter_id = Some v ∧ Voter.has_voted v = true)
       ∧ is_Some (Blockchain.candidates L !! c)
       ∧ Chain.votes_by (Blockchain.chain L) voter_id = [c]).
Proof.
  intros HL. split; [intros vid; by apply reachable_tallied|].
  intros vid c Hin%elem_of_votes_by.
  pose proof (reachable_tallied L vid HL) as Ht. unfold tallied in Ht.
  destruct (Blockchain.voters L !! vid) as [v|].
  - destruct (Voter.has_voted v) eqn:Hv.
    + destruct Ht as (c' & Hc' & Hreg). rewrite Hc' in Hin |- *.
      apply list_elem_of_singleton in Hin as ->. eauto.
    + rewrite Ht in Hin. by apply elem_of_nil in Hin.
  - rewrite Ht in Hin. by apply elem_of_nil in Hin.
Qed.

(** X10: the chain has one block for genesis and one for each accepted
    action: its length is 1 plus the number of voters, of candidates and
    of votes. *)
Theorem X10_chain_length L :
  reachable L →
  length (Blockchain.chain L)
  = (1 + size (Blockchain.voters L) + size (Blockchain.candidates L)
     + length (Chain.votes (Blockchain.chain L)))%nat.
Proof.
  induction 1 as [fuel d t1 t2 L Hinit
                 |fuel L id name t1 t2 r L' _ IH Hop
                 |fuel L id name t1 t2 r L' _ IH Hop
                 |fuel L id cid t1 t2 r L' _ IH Hop].
  - apply init_step in Hinit as (g & -> & Hg).
    apply init_sealed in Hg as (_ & _ & _ & _ & Htx & _).
    unfold Chain.votes, Chain.txs. simpl. rewrite Htx. simpl.
    by rewrite !map_size_empty.
  - apply add_voter_step in Hop as [[_ ->]|(_ & _ & _ & Hnew & b & -> & Hb)];
      [done|].
    simpl. rewrite (add_block_votes _ _ _ _ _ _ Hb). simpl.
    rewrite (right_id_L [] (++)), length_app, map_size_insert_None by done.
    simpl. lia.
  - apply add_candidate_step in Hop as [[_ ->]|(_ & _ & _ & Hnew & b & -> & Hb)];
      [done|].
    simpl. rewrite (add_block_votes _ _ _ _ _ _ Hb). simpl.
    rewrite (right_id_L [] (++)), length_app, map_size_insert_None by done.
    simpl. lia.
  - apply cast_vote_step in Hop as [[_ ->]|(_ & v & Hv & _ & _ & b & -> & Hb)];
      [done|].
    simpl. rewrite (add_block_votes _ _ _ _ _ _ Hb). simpl.
    rewrite !length_app, map_size_insert_Some by done. simpl. lia.
Qed.


(** ** What a verdict of [validate_chain] means *)

Section Verdicts.

Implicit Types L : Blockchain.t.




End Verdicts.



(** ** The menu loop *)

Section Menu.

Lemma sound_same st st' :
  Cli.ledger st' = Cli.ledger st → Cli.ticks st' = Cli.ticks st →
  Cli.sound st → Cli.sound st'.
Proof. unfold Cli.sound. by intros -> ->. Qed.

Lemma say_step env text st oe st' :
  Cli.say env text st = (oe, st') →
  Cli.ledger st' = Cli.ledger st ∧ Cli.ticks st' = Cli.ticks st
  ∧ (oe = None ∨ oe = Some (Cli.PrintRaised text)).
Proof. unfold Cli.say. destruct (Cli.stdout _ _ _); intros [= <- <-]; eauto. Qed.

Lemma emit_step env actions : ∀ st oe st',
  Cli.emit env actions st = (oe, st') →
  Cli.ledger st' = Cli.ledger st ∧ Cli.ticks st' = Cli.ticks st
  ∧ (∀ x, oe ≠ Some (Cli.LedgerRaised x))
  ∧ (∀ c, oe ≠ Some (Cli.SystemExit c)).
Proof.
  induction actions as [|[text|t] actions IH]; intros st oe st'; simpl.
  - by intros [= <- <-].
  - destruct (Cli.say env text st) as [[e0|] st0] eqn:Esay;
      apply say_step in Esay as (Hl & Ht & He).
    + intros [= <- <-]. do 2 (split; [done|]).
      split; intros x; by destruct He as [->| ->].
    + intros (Hl' & Ht' & Hoe)%IH. split; [congruence|]. split; [congruence|done].
  - by intros [= <- <-].
Qed.

(** A call of one of the three operations on the ledger of [st]. *)
Lemma operation_sound st pure res L' n :
  Cli.sound st →
  (∃ fuel x y t_tx t_block,
     pure = Blockchain.add_voter fuel (Cli.ledger st) x y t_tx t_block
     ∨ pure = Blockchain.add_candidate fuel (Cli.ledger st) x y t_tx t_block
     ∨ pure = Blockchain.cast_vote fuel (Cli.ledger st) x y t_tx t_block) →
  pure = Returns (res, L') →
  Cli.sound
    (Cli.State L' (if returned res then Cli.ticks st + 2 else Cli.ticks st) n).
Proof.
  intros (Hreach & Hd & Ht) (fuel & x & y & t1 & t2 & Hm) Hp.
  unfold Cli.sound. simpl.
  destruct Hm as [Hm|[Hm|Hm]]; rewrite Hm in Hp.
  - split; [by eapply reach_add_voter|].
    apply add_voter_step in Hp as [[-> ->]|(-> & _ & _ & _ & b & -> & _)];
      simpl; [done|]. split; [done|]. rewrite length_app. simpl. lia.
  - split; [by eapply reach_add_candidate|].
    apply add_candidate_step in Hp as [[-> ->]|(-> & _ & _ & _ & b & -> & _)];
      simpl; [done|]. split; [done|]. rewrite length_app. simpl. lia.
  - split; [by eapply reach_cast_vote|].
    apply cast_vote_step in Hp as [[-> ->]|(-> & v & _ & _ & _ & b & -> & _)];
      simpl; [done|]. split; [done|]. rewrite length_app. simpl. lia.
Qed.

Lemma after_operation st out o pure oe st' :
  Cli.sound st →
  (∃ fuel x y t_tx t_block,
     pure = Blockchain.add_voter fuel (Cli.ledger st) x y t_tx t_block
     ∨ pure = Blockchain.add_candidate fuel (Cli.ledger st) x y t_tx t_block
     ∨ pure = Blockchain.cast_vote fuel (Cli.ledger st) x y t_tx t_block) →
  Printed.agrees out o pure →
  Cli.after 2 st o = (oe, st') →
  Cli.sound st'
  ∧ (∀ x, oe ≠ Some (Cli.LedgerRaised x))
  ∧ (∀ c, oe ≠ Some (Cli.SystemExit c)).
Proof.
  intros Hst Hop Hag. destruct o as [r L'|text r L'|e L'|]; simpl in Hag |- *.
  - destruct Hag as (res & Hp & <-). intros [= <- <-].
    split; [by eapply operation_sound|done].
  - destruct Hag as (_ & res & Hp & <-). intros [= <- <-].
    split; [by eapply operation_sound|done].
  - done.
  - by intros [= <- <-].
Qed.

Lemma after_validate st out oe st' :
  Cli.sound st →
  Cli.after 0 st (Printed.validate_chain out (Cli.ledger st)) = (oe, st') →
  Cli.sound st'
  ∧ (∀ x, oe ≠ Some (Cli.LedgerRaised x))
  ∧ (∀ c, oe ≠ Some (Cli.SystemExit c)).
Proof.
  intros Hst. rewrite validate_chain_printed by apply Hst.
  unfold Printed.print. destruct (out _); simpl; intros [= <- <-];
    (split; [|done]); apply (sound_same st); simpl; (done || lia || apply Hst).
Qed.

Lemma continue_cases step next e st' :
  Cli.continue step next = (e, st') →
  step = (Some e, st') ∨ ∃ st1, step = (None, st1) ∧ next st1 = (e, st').
Proof. destruct step as [[e0|] st0]; simpl; [intros [= <- <-]; by left|eauto]. Qed.

(** The loop from a sound state: how it ends and in what state. *)
Lemma main_loop_sound fuel env n : ∀ stdin st e st',
  (length stdin ≤ n)%nat →
  Cli.sound st →
  Cli.main_loop fuel env stdin st = (e, st') →
  Cli.sound st'
  ∧ (∀ x, e ≠ Cli.LedgerRaised x)
  ∧ (∀ c, e = Cli.SystemExit c →
       c = 0 ∧ ∃ line, Some line ∈ stdin ∧ strip line = lit "6").
Proof.
  induction n as [|n IH]; intros stdin st e st' Hlen Hst Hrun.
  - destruct stdin; [|simpl in Hlen; lia]. cbn [Cli.main_loop] in Hrun.
    apply continue_cases in Hrun as [Hsay|(st1 & Hsay & [= <- <-])];
      apply say_step in Hsay as (Hl & Ht & He);
      (split; [by apply (sound_same st)|]).
    + by destruct He as [[=]|[= ->]].
    + done.
  - destruct stdin as [|line stdin]; cbn [Cli.main_loop] in Hrun;
      apply continue_cases in Hrun as [Hsay|(st1 & Hsay & Hrun)];
      apply say_step in Hsay as (Hl & Ht & He).
    { split; [by apply (sound_same st)|]. by destruct He as [[=]|[= ->]]. }
    { injection Hrun as <- <-. split; [by apply (sound_same st)|]. done. }
    { split; [by apply (sound_same st)|]. by destruct He as [[=]|[= ->]]. }
    assert (Cli.sound st1) as Hst1 by by apply (sound_same st).
    clear He Hl Ht Hst st. rename st1 into st, Hst1 into Hst.
    destruct line as [line|]; [|injection Hrun as <- <-; done].
    simpl in Hlen.
    assert (∀ rest st2,
              (length rest ≤ length stdin)%nat →
              (∀ l, Some l ∈ rest → Some l ∈ stdin) →
              Cli.sound st2 →
              Cli.main_loop fuel env rest st2 = (e, st') →
              Cli.sound st'
              ∧ (∀ x, e ≠ Cli.LedgerRaised x)
              ∧ (∀ c, e = Cli.SystemExit c →
                   c = 0 ∧ ∃ l, Some l ∈ Some line :: stdin ∧ strip l = lit "6"))
      as Hnext.
    { intros rest st2 Hrest Hsub Hst2 Hrun2.
      destruct (IH rest st2 e st' ltac:(lia) Hst2 Hrun2) as (? & ? & Hexit).
      do 2 (split; [done|]). intros c Hc.
      destruct (Hexit c Hc) as (-> & l & Hl & Hs). split; [done|].
      exists l. split; [|done]. apply elem_of_cons. right. by apply Hsub. }
    assert (∀ o pure a b rest out,
              stdin = Some a :: Some b :: rest →
              (∃ fuel x y t_tx t_block,
                 pure = Blockchain.add_voter fuel (Cli.ledger st) x y t_tx t_block
                 ∨ pure = Blockchain.add_candidate fuel (Cli.ledger st) x y t_tx t_block
                 ∨ pure = Blockchain.cast_vote fuel (Cli.ledger st) x y t_tx t_block) →
              Printed.agrees out o pure →
              Cli.continue (Cli.after 2 st o) (Cli.main_loop fuel env rest) = (e, st') →
              Cli.sound st'
              ∧ (∀ x, e ≠ Cli.LedgerRaised x)
              ∧ (∀ c, e = Cli.SystemExit c →
                   c = 0 ∧ ∃ l, Some l ∈ Some line :: stdin ∧ strip l = lit "6"))
      as Hop.
    { intros o pure a b rest out -> Hpure Hag Hc.
      apply continue_cases in Hc as [Hafter|(st2 & Hafter & Hrun2)];
        apply (after_operation st out o pure _ _ Hst Hpure Hag) in Hafter
          as (Hst2 & Hoe & Hox).
      - split; [done|]. split.
        + intros x ->. by apply (Hoe x).
        + intros c ->. by destruct (Hox c).
      - apply (Hnext rest st2); [simpl; lia| |done|done].
        intros l Hl. do 2 (apply elem_of_cons; right). done. }
    repeat case_decide.
    + destruct stdin as [|[a|] [|[b|] rest]]; cbv beta iota in Hrun;
        try (injection Hrun as <- <-; done).
      eapply (Hop _ _ a b rest); [done| |by apply add_candidate_agrees, Hst|exact Hrun].
      eauto 10.
    + destruct stdin as [|[a|] [|[b|] rest]]; cbv beta iota in Hrun;
        try (injection Hrun as <- <-; done).
      eapply (Hop _ _ a b rest); [done| |by apply add_voter_agrees, Hst|exact Hrun].
      eauto 10.
    + destruct stdin as [|[a|] [|[b|] rest]]; cbv beta iota in Hrun;
        try (injection Hrun as <- <-; done).
      eapply (Hop _ _ a b rest); [done| |by apply cast_vote_agrees, Hst|exact Hrun].
      eauto 10.
    + apply continue_cases in Hrun as [Hemit|(st2 & Hemit & Hrun2)];
        apply emit_step in Hemit as (Hl & Ht & Hoe & Hox).
      * split; [by apply (sound_same st)|]. split.
        -- intros x ->. by apply (Hoe x).
        -- intros c ->. by destruct (Hox c).
      * apply (Hnext stdin st2); [done|done|by apply (sound_same st)|done].
    + apply continue_cases in Hrun as [Hafter|(st2 & Hafter & Hrun2)];
        apply after_validate in Hafter as (Hst2 & Hoe & Hox); try done.
      * split; [done|]. split.
        -- intros x ->. by apply (Hoe x).
        -- intros c ->. by destruct (Hox c).
      * by apply (Hnext stdin st2).
    + apply continue_cases in Hrun as [Hsay|(st2 & Hsay & [= <- <-])];
        apply say_step in Hsay as (Hl & Ht & He);
        (split; [by apply (sound_same st)|]).
      * by destruct He as [[=]|[= ->]].
      * split; [done|]. intros c [= <-].
        split; [done|]. exists line. split; [apply elem_of_cons; by left|done].
    + apply continue_cases in Hrun as [Hsay|(st2 & Hsay & Hrun2)];
        apply say_step in Hsay as (Hl & Ht & He).
      * split; [by apply (sound_same st)|]. by destruct He as [[=]|[= ->]].
      * apply (Hnext stdin st2); [done|done|by apply (sound_same st)|done].
Qed.

End Menu.

(** X12: whatever is typed and whatever the streams do, the ledger [main]
    works on is one the operations produce at difficulty 3, so its chain
    validates, and two clock readings have been taken for each of its
    blocks; no exception raised by the ledger ends [main], only one of
    [input()], of [print] or of the time conversion can; and [main] calls
    [sys.exit] with 0 only, at a menu line that strips to [6]. *)
Theorem X12_main fuel env stdin e o :
  Cli.main fuel env stdin = (e, o) →
  (∀ x, e ≠ Cli.LedgerRaised x)
  ∧ (∀ c, e = Cli.SystemExit c →
       c = 0 ∧ ∃ line, Some line ∈ stdin ∧ strip line = lit "6")
  ∧ match o with
    | Some st =>
        reachable (Cli.ledger st)
        ∧ Blockchain.difficulty (Cli.ledger st) = 3
        ∧ Cli.ticks st = (2 * length (Blockchain.chain (Cli.ledger st)))%nat
        ∧ Blockchain.validate_chain (Cli.ledger st) = Valid
    | None => e = Cli.MiningOutOfFuel
    end.
Proof.
  unfold Cli.main.
  destruct (Blockchain.init fuel 3 _ _) as [L|x|] eqn:Einit.
  - assert (Cli.sound (Cli.State L 2 0)) as Hst.
    { split; [by eapply reach_init|]. simpl.
      apply init_step in Einit as (g & -> & _). done. }
    destruct (Cli.main_loop fuel env stdin (Cli.State L 2 0)) as [e1 st'] eqn:Erun.
    destruct (main_loop_sound fuel env (length stdin) stdin _ e1 st'
                (le_n _) Hst Erun) as ((Hreach & Hd & Ht) & Hnl & Hexit).
    intros [= <- <-]. do 2 (split; [done|]). do 3 (split; [done|]).
    apply chain_ok_validates, reachable_chain_ok, Hreach.
  - by destruct (init_ledger_not_raises fuel 3 (Cli.clock env 0%nat)
                   (Cli.clock env 1%nat) x).
  - by intros [= <- <-].
Qed.

(** X13: an id stays taken.  Once a voter id is in the voter table, every
    later ledger of the same history refuses to register it again, and the
    same for a candidate id in the candidate table: the call returns the
    duplicate error and leaves the ledger as it is. *)
Theorem X13_ids_stay_taken L L' fuel x y t_tx t_block :
  evolves L L' →
  strip x ≠ [] →
  strip y ≠ [] →
  (is_Some (Blockchain.voters L !! strip x) →
     Blockchain.add_voter fuel L' x y t_tx t_block
     = Returns (Failure DuplicateVoterId, L'))
  ∧ (is_Some (Blockchain.candidates L !! strip x) →
     Blockchain.add_candidate fuel L' x y t_tx t_block
     = Returns (Failure DuplicateCandidateId, L')).
Proof.
  intros (_ & _ & Hcs & Hvs)%evolves_extends Hx%is_empty_false Hy%is_empty_false.
  split.
  - intros [v Hv]. destruct (Hvs _ _ Hv) as (v' & Hv' & _).
    unfold Blockchain.add_voter. rewrite Hx, Hy. simpl.
    rewrite decide_True; [done|]. by exists v'.
  - intros [c Hc]. unfold Blockchain.add_candidate. rewrite Hx, Hy. simpl.
    rewrite decide_True; [done|]. exists c. by apply Hcs.
Qed.

(** ** The further properties, on the sessions *)

Section LaterFacts.

Lemma with_second_candidate_returns :
  Blockchain.add_candidate 64 Demo.voted (lit "C2") (lit "Lily")
    (Float "1700000008.5") (Float "1700000008.75")
  = Returns (Success, DemoLater.with_second_candidate).
Proof. vm_compute. reflexivity. Qed.

Lemma evolves_voted_later : evolves Demo.voted DemoLater.with_second_candidate.
Proof.
  eapply ev_add_candidate; [apply ev_here|apply with_second_candidate_returns].
Qed.

Lemma evolves_with_voter_later :
  evolves Demo.with_voter DemoLater.with_second_candidate.
Proof.
  eapply ev_add_candidate; [|apply with_second_candidate_returns].
  eapply ev_cast_vote; [apply ev_here|apply voted_returns].
Qed.

Lemma cli_demo_runs :
  Cli.main 32 CliDemo.env CliDemo.stdin
  = (Cli.SystemExit 0, Some (Cli.State CliDemo.final 8 49)).
Proof. vm_compute. reflexivity. Qed.


End LaterFacts.

(** X1 on the session after the vote: block 3 has index 3 and holds one
    written transaction, which is not the genesis one. *)
Lemma X1_witness :
  reachable Demo.voted
  ∧ ∃ tx, Block.index (Demo.block_at Demo.voted 3) = 3
      ∧ Block.transactions (Demo.block_at Demo.voted 3) = [tx]
      ∧ Chain.written tx
      ∧ Transaction.tx_type tx ≠ lit "GENESIS".
Proof.
  split; [exact reachable_voted|].
  destruct (X1_chain_shape _ reachable_voted) as [_ H].
  destruct (H 3%nat (Demo.block_at Demo.voted 3) eq_refl)
    as (Hi & _ & _ & tx & Htx & Hw & Hg).
  exists tx. split; [exact Hi|]. split; [exact Htx|]. split; [exact Hw|].
  intros E. apply Hg in E. discriminate E.
Defined.

(** X2 on block 3 of the session. *)
Lemma X2_witness :
  reachable Demo.voted
  ∧ Blockchain.chain Demo.voted !! 3%nat = Some (Demo.block_at Demo.voted 3)
  ∧ Chain.hex64 (Block.hash (Demo.block_at Demo.voted 3))
  ∧ Chain.hex64 (Block.previous_hash (Demo.block_at Demo.voted 3)).
Proof.
  split; [exact reachable_voted|]. split; [reflexivity|].
  exact (X2_hashes_are_hex64 Demo.voted 3 _ reachable_voted eq_refl).
Defined.

(** X3 on a stream with the UTF-8 encoding: [add_voter("V1", name)] on the
    fresh ledger, [name] being the lone surrogate U+D800.  The [print] of
    the success message raises, and the ledger is left with the voter in
    the table and the block in the chain. *)
Lemma X3_witness :
  reachable Demo.fresh
  ∧ Printed.add_voter Printed.utf8 64 Demo.fresh (lit "V1") [55296%N]
      (Float "1700000004.5") (Float "1700000004.75")
    = Printed.PrintRaised
        (Printed.check ++ lit " Voter '" ++ [55296%N] ++ lit "' (V1) added.")
        true CliDemo.with_surrogate_name
  ∧ Blockchain.add_voter 64 Demo.fresh (lit "V1") [55296%N]
      (Float "1700000004.5") (Float "1700000004.75")
    = Returns (Success, CliDemo.with_surrogate_name)
  ∧ Blockchain.voters CliDemo.with_surrogate_name !! lit "V1"
    = Some (Voter.Make (lit "V1") [55296%N] false)
  ∧ length (Blockchain.chain CliDemo.with_surrogate_name) = 2%nat.
Proof.
  assert (Printed.add_voter Printed.utf8 64 Demo.fresh (lit "V1") [55296%N]
            (Float "1700000004.5") (Float "1700000004.75")
          = Printed.PrintRaised
              (Printed.check ++ lit " Voter '" ++ [55296%N] ++ lit "' (V1) added.")
              true CliDemo.with_surrogate_name) as Hrun
    by (vm_compute; reflexivity).
  split; [exact reachable_fresh|]. split; [exact Hrun|].
  pose proof (proj1 (X3_only_print_raises Demo.fresh Printed.utf8 64 (lit "V1")
                       [55296%N] (Float "1700000004.5") (Float "1700000004.75")
                       reachable_fresh)) as H.
  rewrite Hrun in H. destruct H as (_ & res & Hpure & Hres).
  split; [|split; [vm_compute; reflexivity|reflexivity]].
  rewrite Hpure. by destruct res.
Defined.


(** X5 with difficulty 0 and no fuel at all. *)
Lemma X5_witness :
  - 2 ^ 63 ≤ 0 ≤ 0
  ∧ convertible 0
  ∧ is_Some (encode (times 48%N 64))
  ∧ ∃ h, Block.calculate_hash
           (Block.Make 0 (Float "1700000000.75") [] (times 48%N 64) 0 0 h) = Some h
      ∧ Block.init 0 0 [] (times 48%N 64) 0 (Float "1700000000.75")
        = Returns (Block.Make 0 (Float "1700000000.75") [] (times 48%N 64) 0 0 h).
Proof.
  assert (- 2 ^ 63 ≤ 0 ≤ 0) as Hd by lia.
  assert (convertible 0) as H0 by (apply convertible_small; vm_compute; reflexivity).
  assert (is_Some (encode (times 48%N 64))) as Henc
    by (apply hex64_encodes, zeros_hex64).
  split; [exact Hd|]. split; [exact H0|]. split; [exact Henc|].
  exact (X5_mining_without_target 0 0 [] (times 48%N 64) 0 (Float "1700000000.75")
           Hd H0 Henc).
Defined.

(** X6 on the session after the vote: the names in the voter table are
    stripped, though Alice was typed with blanks around her name. *)
Lemma X6_witness :
  reachable Demo.voted
  ∧ ∀ k v, Blockchain.voters Demo.voted !! k = Some v →
      Voter.voter_id v = k ∧ k ≠ [] ∧ Voter.name v ≠ []
      ∧ strip k = k ∧ strip (Voter.name v) = Voter.name v.
Proof.
  split; [exact reachable_voted|].
  exact (proj1 (X6_tables_hold_stripped_records _ reachable_voted)).
Defined.

(** X7 from the session with its voter to the one with a second
    candidate. *)
Lemma X7_witness :
  evolves Demo.with_voter DemoLater.with_second_candidate
  ∧ Blockchain.chain Demo.with_voter
      `prefix_of` Blockchain.chain DemoLater.with_second_candidate
  ∧ Blockchain.difficulty DemoLater.with_second_candidate
    = Blockchain.difficulty Demo.with_voter.
Proof.
  split; [exact evolves_with_voter_later|].
  destruct (X7_history_only_grows _ _ evolves_with_voter_later) as (H1 & H2 & _).
  exact (conj H1 H2).
Defined.

(** X8 on the session: after V1 voted for C1 and C2 was registered, V1
    cannot vote for C2. *)
Lemma X8_witness :
  Blockchain.cast_vote 64 Demo.with_voter (lit "V1") (lit "C1")
    (Float "1700000003.5") (Float "1700000003.75")
  = Returns (Success, Demo.voted)
  ∧ evolves Demo.voted DemoLater.with_second_candidate
  ∧ strip (lit " V1 ") = strip (lit "V1")
  ∧ Blockchain.cast_vote 0 DemoLater.with_second_candidate (lit " V1 ") (lit "C2")
      (Float "1700000009.5") (Float "1700000009.75")
    = Returns (Failure AlreadyVoted, DemoLater.with_second_candidate).
Proof.
  split; [exact voted_returns|]. split; [exact evolves_voted_later|].
  split; [reflexivity|].
  refine (proj1 (X8_no_second_vote _ _ _ _ _ _ _ _ 0%nat (lit " V1 ") (lit "C2")
                   (Float "1700000009.5") (Float "1700000009.75")
                   voted_returns evolves_voted_later eq_refl) _).
  vm_compute. eexists. reflexivity.
Defined.

(** X9 on the session after the vote: the chain holds the one vote of V1,
    for C1. *)
Lemma X9_witness :
  reachable Demo.voted
  ∧ Chain.votes (Blockchain.chain Demo.voted) = [(lit "V1", lit "C1")]
  ∧ Chain.votes_by (Blockchain.chain Demo.voted) (lit "V1") = [lit "C1"].
Proof.
  split; [exact reachable_voted|].
  assert (Chain.votes (Blockchain.chain Demo.voted) = [(lit "V1", lit "C1")]) as Hvotes
    by reflexivity.
  split; [exact Hvotes|].
  refine (proj2 (proj2 (proj2 (X9_one_vote_per_voter _ reachable_voted)
                          (lit "V1") (lit "C1") _))).
  rewrite Hvotes. apply list_elem_of_here.
Defined.

(** X10 on the session after the vote: four blocks for genesis, one voter,
    one candidate and one vote. *)
Lemma X10_witness :
  reachable Demo.voted
  ∧ length (Blockchain.chain Demo.voted)
    = (1 + size (Blockchain.voters Demo.voted)
       + size (Blockchain.candidates Demo.voted)
       + length (Chain.votes (Blockchain.chain Demo.voted)))%nat.
Proof.
  split; [exact reachable_voted|]. exact (X10_chain_length _ reachable_voted).
Defined.


(** X12 on a run of [main]: it ends with [sys.exit(0)] at the line [6],
    with a valid ledger of four blocks, eight clock readings taken and 49
    texts printed. *)
Lemma X12_witness :
  Cli.main 32 CliDemo.env CliDemo.stdin
  = (Cli.SystemExit 0, Some (Cli.State CliDemo.final 8 49))
  ∧ reachable CliDemo.final
  ∧ Blockchain.validate_chain CliDemo.final = Valid
  ∧ length (Blockchain.chain CliDemo.final) = 4%nat.
Proof.
  split; [exact cli_demo_runs|].
  destruct (X12_main 32 CliDemo.env CliDemo.stdin _ _ cli_demo_runs)
    as (_ & _ & Hreach & _ & _ & Hvalid).
  split; [exact Hreach|]. split; [exact Hvalid|]. reflexivity.
Defined.

(** X13 on the session: V1 and C1, registered early, are refused in the
    ledger with the second candidate. *)
Lemma X13_witness :
  evolves Demo.with_voter DemoLater.with_second_candidate
  ∧ strip (lit " V1") ≠ []
  ∧ strip (lit "Bob") ≠ []
  ∧ Blockchain.add_voter 0 DemoLater.with_second_candidate (lit " V1") (lit "Bob")
      (Float "1700000009.5") (Float "1700000009.75")
    = Returns (Failure DuplicateVoterId, DemoLater.with_second_candidate).
Proof.
  assert (strip (lit " V1") ≠ []) as Hx by (intros E; vm_compute in E; discriminate E).
  assert (strip (lit "Bob") ≠ []) as Hy by (intros E; vm_compute in E; discriminate E).
  split; [exact evolves_with_voter_later|]. split; [exact Hx|]. split; [exact Hy|].
  refine (proj1 (X13_ids_stay_taken _ _ 0%nat (lit " V1") (lit "Bob")
                   (Float "1700000009.5") (Float "1700000009.75")
                   evolves_with_voter_later Hx Hy) _).
  vm_compute. eexists. reflexivity.
Defined.
